(** * novaix-site: the proxy server [server.js]

    A shallow embedding of the aggregation core of [server.js] (token
    cache, Gemini fallback loop, Open Food Facts search and barcode
    gateways, search cache, JSON extraction) and the properties of its
    specification.

    Conventions of the embedding.
    - A JavaScript string is a [string] whose characters are the code
      units U+0000..U+00FF; text outside Latin-1 is not represented.
    - A JavaScript number is a [num]: NaN, the two infinities, negative
      zero, or a finite value carried as an exact rational.  Arithmetic on
      finite values is exact: the rounding of binary64 is not modelled, so
      a statement about [num_mul], [num_div] or [num_add] describes the
      program on the inputs where the double-precision result is exact.
    - [await]ed calls are sequential: a function takes the network state
      and returns the new one.  Interleaving of concurrent requests is not
      modelled. *)

From Stdlib Require Import ZArith QArith Qround Lqa String Ascii List Lia.
From stdpp Require Import base option list gmap strings pretty.

Set Warnings "-register-all".

Local Open Scope string_scope.
Local Open Scope Z_scope.
Local Open Scope list_scope.

(** ** JavaScript numbers *)

Inductive num : Type :=
  | NaN
  | Inf (negative : bool)
  | NegZero
  | Fin (q : Q).

Definition Qltb (a b : Q) : bool := negb (Qle_bool b a).

Definition num_of_Z (z : Z) : num := Fin (inject_Z z).

Definition is_nan (x : num) : bool :=
  match x with NaN => true | _ => false end.

Definition is_zero (x : num) : bool :=
  match x with
  | NegZero => true
  | Fin q => Qeq_bool q 0
  | _ => false
  end.

Definition sign_neg (x : num) : bool :=
  match x with
  | Inf b => b
  | NegZero => true
  | Fin q => Qltb q 0
  | NaN => false
  end.

(** The mathematical value of a finite number. *)
Definition fin_value (x : num) : Q :=
  match x with Fin q => q | _ => 0%Q end.

Definition signed_zero (negative : bool) : num :=
  if negative then NegZero else Fin 0.

(** [a < b] on numbers: false as soon as one side is NaN; the two zeros
    compare equal. *)
Definition num_lt (a b : num) : bool :=
  match a, b with
  | NaN, _ | _, NaN => false
  | Inf true, Inf true => false
  | Inf true, _ => true
  | _, Inf true => false
  | Inf false, _ => false
  | _, Inf false => true
  | _, _ => Qltb (fin_value a) (fin_value b)
  end.

Definition num_gt (a b : num) : bool := num_lt b a.

(** [a >= b] on numbers (false when one side is NaN). *)
Definition num_ge (a b : num) : bool :=
  match a, b with
  | NaN, _ | _, NaN => false
  | _, _ => negb (num_lt a b)
  end.

(** Strict equality of two numbers ([===]): NaN differs from itself and
    the two zeros are equal. *)
Definition num_eq (a b : num) : bool :=
  match a, b with
  | NaN, _ | _, NaN => false
  | Inf s, Inf t => Bool.eqb s t
  | Inf _, _ | _, Inf _ => false
  | _, _ => Qeq_bool (fin_value a) (fin_value b)
  end.

Definition num_neg (a : num) : num :=
  match a with
  | NaN => NaN
  | Inf s => Inf (negb s)
  | NegZero => Fin 0
  | Fin q => if Qeq_bool q 0 then NegZero else Fin (- q)
  end.

Definition num_add (a b : num) : num :=
  match a, b with
  | NaN, _ | _, NaN => NaN
  | Inf s, Inf t => if Bool.eqb s t then Inf s else NaN
  | Inf s, _ | _, Inf s => Inf s
  | NegZero, NegZero => NegZero
  | _, _ => Fin (fin_value a + fin_value b)
  end.

Definition num_sub (a b : num) : num := num_add a (num_neg b).

Definition num_mul (a b : num) : num :=
  let s := xorb (sign_neg a) (sign_neg b) in
  match a, b with
  | NaN, _ | _, NaN => NaN
  | Inf _, _ => if is_zero b then NaN else Inf s
  | _, Inf _ => if is_zero a then NaN else Inf s
  | _, _ =>
      let q := (fin_value a * fin_value b)%Q in
      if Qeq_bool q 0 then signed_zero s else Fin q
  end.

Definition num_div (a b : num) : num :=
  let s := xorb (sign_neg a) (sign_neg b) in
  match a, b with
  | NaN, _ | _, NaN => NaN
  | Inf _, Inf _ => NaN
  | Inf _, _ => Inf s
  | _, Inf _ => signed_zero s
  | _, _ =>
      if is_zero b then (if is_zero a then NaN else Inf s)
      else if is_zero a then signed_zero s
      else Fin (fin_value a / fin_value b)
  end.

(** [Math.min] of two numbers. *)
Definition Math_min (a b : num) : num :=
  match a, b with
  | NaN, _ | _, NaN => NaN
  | _, _ =>
      if num_lt a b then a
      else if num_lt b a then b
      else if sign_neg a then a else b
  end.

(** [Math.round] on a number: the nearest integer, a tie going up; a value
    in [-0.5, 0) gives negative zero; NaN, the infinities and the zeros
    are returned as they are. *)
Definition Math_round_num (x : num) : num :=
  match x with
  | Fin q =>
      if Qle_bool (-1 # 2) q && Qltb q 0 then NegZero
      else Fin (inject_Z (Qfloor (q + (1 # 2))))
  | _ => x
  end.


(** ** JavaScript values: what [JSON.parse] builds, and [undefined] *)

Inductive value : Type :=
  | Undefined
  | Null
  | Bool (b : bool)
  | Num (n : num)
  | Str (s : string)
  | Arr (elems : list value)
  | Obj (fields : list (string * value)).

Definition is_empty (s : string) : bool :=
  match s with EmptyString => true | _ => false end.

(** ToBoolean. *)
Definition truthy (v : value) : bool :=
  match v with
  | Undefined | Null => false
  | Bool b => b
  | Num n => negb (is_nan n || is_zero n)
  | Str s => negb (is_empty s)
  | Arr _ | Obj _ => true
  end.

(** [a || b]. *)
Definition or_else (a b : value) : value := if truthy a then a else b.

(** [a !== b] where [b] is a number literal. *)
Definition strict_neq_num (a : value) (b : num) : bool :=
  match a with
  | Num n => negb (num_eq n b)
  | _ => true
  end.

(** Errors.  The source throws plain [Error] objects; the constructor
    records where the object was made, [message] is its [.message]. *)
Inductive Exn : Type :=
  | GenerationError (m : string)   (* callGemini, after the loops *)
  | AuthError (m : string)         (* getAccessToken, non-2xx *)
  | UpstreamError (m : string)     (* Open Food Facts, non-2xx or no JSON *)
  | NotFoundError (m : string)     (* findFoodByBarcode, status !== 1 *)
  | TypeError (m : string)         (* raised by the runtime *)
  | TransportError (m : string).   (* the 'error' event of https.request *)

Definition message (e : Exn) : string :=
  match e with
  | GenerationError m | AuthError m | UpstreamError m
  | NotFoundError m | TypeError m | TransportError m => m
  end.

Inductive result (A : Type) : Type :=
  | Ok (a : A)
  | Throw (e : Exn).
Arguments Ok {A} a.
Arguments Throw {A} e.

#[global] Instance result_ret : MRet result := fun A a => Ok a.

#[global] Instance result_bind : MBind result := fun A B k r =>
  match r with
  | Ok a => k a
  | Throw e => Throw e
  end.

Fixpoint lookup_field (k : string) (fields : list (string * value)) : value :=
  match fields with
  | [] => Undefined
  | (k', v) :: rest => if String.eqb k k' then v else lookup_field k rest
  end.

(** [v.k] and [v[k]] for the data keys the server reads.  None of them
    names a property of a prototype, so only an object has them; reading
    a property of [undefined] or [null] throws. *)
Definition get (v : value) (k : string) : result value :=
  match v with
  | Undefined =>
      Throw (TypeError ("Cannot read properties of undefined (reading '" +:+ k +:+ "')"))
  | Null =>
      Throw (TypeError ("Cannot read properties of null (reading '" +:+ k +:+ "')"))
  | Obj fields => Ok (lookup_field k fields)
  | _ => Ok Undefined
  end.

(** [v?.k]. *)
Definition get_opt (v : value) (k : string) : value :=
  match v with
  | Obj fields => lookup_field k fields
  | _ => Undefined
  end.

(** [v?.[0]]. *)
Definition first_opt (v : value) : value :=
  match v with
  | Arr (x :: _) => x
  | Str (String c _) => Str (String c EmptyString)
  | Obj fields => lookup_field "0" fields
  | _ => Undefined
  end.

(** ** Strings *)

Definition charCode (c : ascii) : N := N_of_ascii c.

(** WhiteSpace and LineTerminator code units below U+0100: TAB, LF, VT,
    FF, CR, SP and NBSP. *)
Definition is_space (c : ascii) : bool :=
  let n := charCode c in
  ((9 <=? n) && (n <=? 13) || (n =? 32) || (n =? 160))%N.

(** [[a-zA-Z]] *)
Definition is_letter (c : ascii) : bool :=
  let n := charCode c in
  ((65 <=? n) && (n <=? 90) || (97 <=? n) && (n <=? 122))%N.

(** [\d] *)
Definition is_digit (c : ascii) : bool :=
  let n := charCode c in ((48 <=? n) && (n <=? 57))%N.

Definition backtick : ascii := ascii_of_N 96.
Definition newline : ascii := ascii_of_N 10.
Definition open_brace : ascii := ascii_of_N 123.
Definition close_brace : ascii := ascii_of_N 125.

Definition fence : string := String backtick (String backtick (String backtick "")).
Definition tick_json : string := String backtick "json".

Fixpoint trimStart (s : string) : string :=
  match s with
  | String c r => if is_space c then trimStart r else s
  | EmptyString => EmptyString
  end.

Fixpoint trimEnd (s : string) : string :=
  match s with
  | EmptyString => EmptyString
  | String c r =>
      let r' := trimEnd r in
      if is_empty r' && is_space c then EmptyString else String c r'
  end.

(** [s.trim()] *)
Definition trim (s : string) : string := trimEnd (trimStart s).

(** [s.startsWith(p)] *)
Definition startsWith (p s : string) : bool := String.prefix p s.

Fixpoint drop (n : nat) (s : string) : string :=
  match n, s with
  | S n', String _ r => drop n' r
  | _, _ => s
  end.

Fixpoint drop_letters (s : string) : string :=
  match s with
  | String c r => if is_letter c then drop_letters r else s
  | EmptyString => EmptyString
  end.

Definition drop_newline (s : string) : string :=
  match s with
  | String c r => if Ascii.eqb c newline then r else s
  | EmptyString => EmptyString
  end.

(** [s.replace(/^```[a-zA-Z]*\n?/, "")] *)
Definition strip_fence_open (s : string) : string :=
  if startsWith fence s then drop_newline (drop_letters (drop 3 s)) else s.

(** [s.replace(/^`json\n?/, "")] *)
Definition strip_tick_json (s : string) : string :=
  if startsWith tick_json s then drop_newline (drop 5 s) else s.

(** [s.replace(/```$/, "")]: without the [m] flag [$] is the end of the
    string. *)
Fixpoint strip_fence_close (s : string) : string :=
  if String.eqb s fence then EmptyString
  else match s with
       | String c r => String c (strip_fence_close r)
       | EmptyString => EmptyString
       end.

Fixpoint from_first (c : ascii) (s : string) : option string :=
  match s with
  | EmptyString => None
  | String a r => if Ascii.eqb a c then Some s else from_first c r
  end.

Fixpoint upto_last (c : ascii) (s : string) : option string :=
  match s with
  | EmptyString => None
  | String a r =>
      match upto_last c r with
      | Some r' => Some (String a r')
      | None => if Ascii.eqb a c then Some (String a EmptyString) else None
      end
  end.

(** [s.match(/\{[\s\S]*\}/)]: from the first opening brace to the last
    closing brace after it; [None] is the [null] of a failed match. *)
Definition match_braces (s : string) : option string :=
  match from_first open_brace s with
  | Some (String b r) =>
      match upto_last close_brace r with
      | Some r' => Some (String b r')
      | None => None
      end
  | _ => None
  end.

Fixpoint take_digits (s : string) : string :=
  match s with
  | String c r => if is_digit c then String c (take_digits r) else EmptyString
  | EmptyString => EmptyString
  end.

(** [s.match(/(\d+)/)]: the first maximal run of decimal digits. *)
Fixpoint match_digits (s : string) : option string :=
  match s with
  | EmptyString => None
  | String c r => if is_digit c then Some (take_digits s) else match_digits r
  end.

Fixpoint digits_value (acc : Z) (s : string) : Z :=
  match s with
  | String c r => digits_value (10 * acc + (Z.of_N (charCode c) - 48)) r
  | EmptyString => acc
  end.

(** [parseInt] on a non-empty string of decimal digits. *)
Definition parseInt (digits : string) : num := num_of_Z (digits_value 0 digits).

(** [h.includes(n)] *)
Fixpoint includes (n h : string) : bool :=
  String.prefix n h ||
  match h with
  | String _ r => includes n r
  | EmptyString => false
  end.

Definition lower (c : ascii) : ascii :=
  let n := charCode c in
  if ((65 <=? n) && (n <=? 90) || (192 <=? n) && (n <=? 222) && negb (n =? 215))%N
  then ascii_of_N (n + 32) else c.

(** [s.toLowerCase()] on Latin-1 text. *)
Fixpoint toLowerCase (s : string) : string :=
  match s with
  | String c r => String (lower c) (toLowerCase r)
  | EmptyString => EmptyString
  end.

(** ** The runtime and the network *)

(** Built-ins the server relies on and that are taken as given. *)
Class Runtime : Type := {
  (** [JSON.parse]; [None] when it throws. *)
  JSON_parse : string -> option value;
  (** ToNumber on a string. *)
  StringToNumber : string -> num;
  (** ToNumber on an array or an object. *)
  ObjectToNumber : value -> num;
  (** ToString on a number, an array or an object. *)
  ObjectToString : value -> string;
  (** [JSON.stringify] *)
  JSON_stringify : value -> string
}.

(** One outbound HTTPS call, by what the server puts in it. *)
Inductive Request : Type :=
  | GeminiRequest (version model : string) (key : value) (payload : value)
  | TokenRequest (client_id client_secret : string)
  | OffSearchRequest (baseUrl query : string) (page pageSize : num)
      (lc_es strict_country : bool)
  | OffProductRequest (baseUrl barcode : string) (lc_es : bool).

(** [requestText] either resolves with a status and a body or rejects
    with the transport error. *)
Inductive Outcome : Type :=
  | Response (status : Z) (text : string)
  | Failure (m : string).

(** The outside world: it answers requests and owns the clock that
    [Date.now()] reads. *)
Class Network : Type := {
  World : Type;
  send : World -> Request -> Outcome * World;
  clock : World -> Z
}.

Record Config : Type := {
  CLIENT_ID : string;
  CLIENT_SECRET : string;
  REGION : string;
  OFF_BASE_URL : string;
  OFF_STRICT_COUNTRY : bool;
  GEMINI_API_KEY : value;
  GEMINI_MODELS : list string;
  GEMINI_API_VERSIONS : list string
}.

Record HttpResponse : Type := {
  status : Z;
  text : string;
  json : value
}.

Record TokenCache : Type := {
  token : value;
  expiresAt : num
}.

(** An entry of [items] in the answer of [/api/search]. *)
Record SearchResultItem : Type := {
  id : value;
  name : value;
  brand : value;
  image_url : value;
  kcal_100g : num;
  protein_100g : num;
  fat_100g : num;
  carbs_100g : num
}.

Record SearchResponse : Type := {
  items : list SearchResultItem;
  count : num;
  page : num;
  pageSize : num
}.

Record Serving : Type := {
  serving_description : value;
  calories : num;
  protein : num;
  fat : num;
  carbohydrate : num;
  metric_serving_amount : num;
  metric_serving_unit : string
}.

(** The answer of [/api/barcode]; [food_name], [food_brand] and
    [food_image_url] are its keys [name], [brand] and [image_url]. *)
Record BarcodeProduct : Type := {
  food_id : string;
  food_name : value;
  food_brand : value;
  food_image_url : value;
  servings : list Serving
}.

(** A value of [searchCache]. *)
Record CacheEntry : Type := {
  data : SearchResponse;
  cache_expiresAt : Z
}.

(** What a route writes: the status of [writeHead] and the object given
    to [JSON.stringify] for the body. *)
Inductive Body : Type :=
  | SearchBody (r : SearchResponse)
  | ProductBody (p : BarcodeProduct)
  | ErrorBody (error : string).

Record Reply : Type := {
  code : Z;
  body : Body
}.

Definition SEARCH_CACHE_TTL_MS : Z := 5 * 60 * 1000.

Definition world_url : string := "https://world.openfoodfacts.org".

Definition o_acute : ascii := ascii_of_N 243.

Definition not_found_marker : string := "Producto no encontrado".

(** [const tokenCache = { token: null, expiresAt: 0 }] *)
Definition tokenCache0 : TokenCache := {| token := Null; expiresAt := Fin 0 |}.

Definition is_2xx (st : Z) : bool := (200 <=? st) && (st <? 300).

Section Server.
Context {rt : Runtime} {nw : Network}.
Variable cfg : Config.

(** The network as the server sees it: the world and the requests issued
    so far, oldest first. *)
Record Net : Type := {
  world : World;
  sent : list Request
}.

Definition ToNumber (v : value) : num :=
  match v with
  | Undefined => NaN
  | Null => Fin 0
  | Bool b => if b then Fin 1 else Fin 0
  | Num n => n
  | Str s => StringToNumber s
  | Arr _ | Obj _ => ObjectToNumber v
  end.

(** [String(v)] *)
Definition ToString (v : value) : string :=
  match v with
  | Undefined => "undefined"
  | Null => "null"
  | Bool b => if b then "true" else "false"
  | Str s => s
  | Num _ | Arr _ | Obj _ => ObjectToString v
  end.

(** [Math.round(v)] *)
Definition Math_round (v : value) : num := Math_round_num (ToNumber v).

Definition requestText (r : Request) (n : Net) : result (Z * string) * Net :=
  let (o, w) := send (world n) r in
  let n' := {| world := w; sent := sent n ++ [r] |} in
  match o with
  | Response st tx => (Ok (st, tx), n')
  | Failure m => (Throw (TransportError m), n')
  end.

Definition requestJson (r : Request) (n : Net) : result HttpResponse * Net :=
  match requestText r n with
  | (Ok (st, tx), n') =>
      let js := match JSON_parse tx with Some v => v | None => Null end in
      (Ok {| status := st; text := tx; json := js |}, n')
  | (Throw e, n') => (Throw e, n')
  end.

(** The text [parseGeminiJson] hands to the first [JSON.parse]. *)
Definition cleaned (s : string) : string :=
  let c := trim s in
  let c := if startsWith fence c
           then trim (strip_fence_close (strip_fence_open c)) else c in
  if startsWith tick_json c
  then trim (strip_fence_close (strip_tick_json c)) else c.

Definition parseGeminiJson (text : value) : value :=
  if negb (truthy text) then Null
  else
    match JSON_parse (cleaned (ToString text)) with
    | Some v => v
    | None =>
        match match_braces (ToString text) with
        | Some m =>
            match JSON_parse m with
            | Some v => v
            | None => Null
            end
        | None => Null
        end
    end.

(** The inner [for] of [callGemini]: the API versions for one model.
    [response] and [lastError] are the variables of the same name;
    returning at a 2xx status is the [break]. *)
Fixpoint gemini_versions (payload : value) (model : string)
    (versions : list string) (response : option HttpResponse)
    (lastError : option string) (n : Net)
  : result (option HttpResponse * option string) * Net :=
  match versions with
  | [] => (Ok (response, lastError), n)
  | version :: rest =>
      match requestJson (GeminiRequest version model (GEMINI_API_KEY cfg) payload) n with
      | (Throw e, n') => (Throw e, n')
      | (Ok r, n') =>
          if is_2xx (status r) then (Ok (Some r, lastError), n')
          else gemini_versions payload model rest (Some r) (Some (text r)) n'
      end
  end.

Definition succeeded (response : option HttpResponse) : bool :=
  match response with
  | Some r => is_2xx (status r)
  | None => false
  end.

(** The outer [for] of [callGemini]. *)
Fixpoint gemini_models (payload : value) (models : list string)
    (response : option HttpResponse) (lastError : option string) (n : Net)
  : result (option HttpResponse * option string) * Net :=
  match models with
  | [] => (Ok (response, lastError), n)
  | model :: rest =>
      match gemini_versions payload model (GEMINI_API_VERSIONS cfg) response lastError n with
      | (Throw e, n') => (Throw e, n')
      | (Ok (response', lastError'), n') =>
          if succeeded response' then (Ok (response', lastError'), n')
          else gemini_models payload rest response' lastError' n'
      end
  end.

(** [lastError || "Gemini error"] *)
Definition gemini_message (lastError : option string) : string :=
  match lastError with
  | Some s => if is_empty s then "Gemini error" else s
  | None => "Gemini error"
  end.

(** [response.json?.candidates?.[0]?.content?.parts?.[0]?.text || ""] *)
Definition gemini_text (r : HttpResponse) : value :=
  let candidate := first_opt (get_opt (json r) "candidates") in
  let part := first_opt (get_opt (get_opt candidate "content") "parts") in
  or_else (get_opt part "text") (Str "").

Definition callGemini (payload : value) (n : Net) : result value * Net :=
  match gemini_models payload (GEMINI_MODELS cfg) None None n with
  | (Throw e, n') => (Throw e, n')
  | (Ok (response, lastError), n') =>
      match response with
      | Some r =>
          if is_2xx (status r) then (Ok (gemini_text r), n')
          else (Throw (GenerationError (gemini_message lastError)), n')
      | None => (Throw (GenerationError (gemini_message lastError)), n')
      end
  end.

Definition getAccessToken (tokenCache : TokenCache) (n : Net)
  : result value * TokenCache * Net :=
  let now := num_of_Z (clock (world n)) in
  if truthy (token tokenCache)
     && num_lt now (num_sub (expiresAt tokenCache) (num_of_Z 10000))
  then (Ok (token tokenCache), tokenCache, n)
  else
    match requestJson (TokenRequest (CLIENT_ID cfg) (CLIENT_SECRET cfg)) n with
    | (Throw e, n') => (Throw e, tokenCache, n')
    | (Ok r, n') =>
        if (status r <? 200) || (status r >=? 300)
        then (Throw (AuthError ("FatSecret token error: " +:+ text r)), tokenCache, n')
        else
          let data := json r in
          match get data "access_token" with
          | Throw e => (Throw e, tokenCache, n')
          | Ok access_token =>
              let expires_in := get_opt data "expires_in" in
              let tokenCache' :=
                {| token := access_token;
                   expiresAt := num_add now (num_mul (ToNumber expires_in) (num_of_Z 1000)) |} in
              (Ok access_token, tokenCache', n')
          end
    end.

(** [baseUrls] of [fetchFoods] and [findFoodByBarcode]. *)
Definition baseUrls : list string :=
  OFF_BASE_URL cfg ::
  (if String.eqb (OFF_BASE_URL cfg) world_url then [] else [world_url]).

Definition lc_es : bool := String.eqb (REGION cfg) "ES".

(** [Number(page) > 0 ? Number(page) : 1], with the default [page = 1]
    of the parameter. *)
Definition safePage (page : value) : num :=
  let page := match page with Undefined => Num (Fin 1) | _ => page end in
  if num_gt (ToNumber page) (Fin 0) then ToNumber page else Fin 1.

(** [Number(pageSize) > 0 ? Math.min(Number(pageSize), 50) : 20], with
    the default [pageSize = 12] of the parameter. *)
Definition safePageSize (pageSize : value) : num :=
  let pageSize := match pageSize with Undefined => Num (Fin 12) | _ => pageSize end in
  if num_gt (ToNumber pageSize) (Fin 0)
  then Math_min (ToNumber pageSize) (Fin 50) else Fin 20.

Definition off_error (r : HttpResponse) : Exn :=
  UpstreamError ("Open Food Facts error: " +:+ text r).

(** The body of the [try] in [fetchFoods]. *)
Definition search_attempt (baseUrl query : string) (pg pgSize : num) (n : Net)
  : result value * Net :=
  match requestJson (OffSearchRequest baseUrl query pg pgSize lc_es
                       (lc_es && OFF_STRICT_COUNTRY cfg)) n with
  | (Throw e, n') => (Throw e, n')
  | (Ok r, n') =>
      if (status r <? 200) || (status r >=? 300) then (Throw (off_error r), n')
      else if negb (truthy (json r)) then (Throw (off_error r), n')
      else (Ok (json r), n')
  end.

(** The [for] over [baseUrls] in [fetchFoods]: [searchJson] is set only by
    an attempt that passed both checks. *)
Fixpoint search_loop (urls : list string) (query : string) (pg pgSize : num)
    (lastError : option Exn) (n : Net) : option value * option Exn * Net :=
  match urls with
  | [] => (None, lastError, n)
  | baseUrl :: rest =>
      match search_attempt baseUrl query pg pgSize n with
      | (Ok searchJson, n') => (Some searchJson, lastError, n')
      | (Throw e, n') => search_loop rest query pg pgSize (Some e) n'
      end
  end.

(** [nutriments[k100] || nutriments[k] || 0]; [nutriments] is truthy, so
    the reads cannot throw. *)
Definition nutrient (nutriments : value) (k100 k : string) : value :=
  or_else (get_opt nutriments k100) (or_else (get_opt nutriments k) (Num (Fin 0))).

(** The arrow function given to [products.map]. *)
Definition search_item (item : value) : result SearchResultItem :=
  n0 ← get item "nutriments";
  let nutriments := or_else n0 (Obj []) in
  let kcal := ToNumber (nutrient nutriments "energy-kcal_100g" "energy-kcal") in
  let protein := ToNumber (nutrient nutriments "proteins_100g" "proteins") in
  let fat := ToNumber (nutrient nutriments "fat_100g" "fat") in
  let carbs := ToNumber (nutrient nutriments "carbohydrates_100g" "carbohydrates") in
  let brand := or_else (get_opt item "brands") (or_else (get_opt item "brand_owner") (Str "")) in
  let imageUrl :=
    or_else (get_opt item "image_front_small_url")
      (or_else (get_opt item "image_front_url")
         (or_else (get_opt item "image_url") (Str ""))) in
  Ok {| id := get_opt item "code";
        name := or_else (get_opt item "product_name")
                  (or_else (get_opt item "product_name_es")
                     (Str ("Producto " +:+ ToString (get_opt item "code"))));
        brand := brand;
        image_url := imageUrl;
        kcal_100g := Math_round_num kcal;
        protein_100g := Math_round_num protein;
        fat_100g := Math_round_num fat;
        carbs_100g := Math_round_num carbs |}.

Fixpoint map_items (products : list value) : result (list SearchResultItem) :=
  match products with
  | [] => Ok []
  | item :: rest =>
      it ← search_item item;
      its ← map_items rest;
      Ok (it :: its)
  end.

(** [products.map(...)]: [products] is truthy; only an array has [map]. *)
Definition products_map (products : value) : result (list SearchResultItem) :=
  match products with
  | Arr l => map_items l
  | _ => Throw (TypeError "products.map is not a function")
  end.

Definition fetchFoods (query : string) (page pageSize : value) (n : Net)
  : result SearchResponse * Net :=
  let pg := safePage page in
  let pgSize := safePageSize pageSize in
  match search_loop baseUrls query pg pgSize None n with
  | (None, lastError, n') =>
      (Throw (match lastError with
              | Some e => e
              | None => UpstreamError "Open Food Facts error"
              end), n')
  | (Some searchJson, _, n') =>
      let products := or_else (get_opt searchJson "products") (Arr []) in
      match products_map products with
      | Throw e => (Throw e, n')
      | Ok its =>
          (Ok {| items := its;
                 count := ToNumber (or_else (get_opt searchJson "count") (Num (Fin 0)));
                 page := pg;
                 pageSize := pgSize |}, n')
      end
  end.

(** [searchCache.get(cacheKey)], the test on [expiresAt] and the
    [searchCache.delete(cacheKey)] of an entry found expired: the data on
    a hit, and the cache after the lookup. *)
Definition cache_get (now : Z) (cacheKey : string)
    (searchCache : gmap string CacheEntry)
  : option SearchResponse * gmap string CacheEntry :=
  match searchCache !! cacheKey with
  | Some cached =>
      if cache_expiresAt cached >? now then (Some (data cached), searchCache)
      else (None, delete cacheKey searchCache)
  | None => (None, searchCache)
  end.

(** [searchCache.set(cacheKey, { data, expiresAt: Date.now() + SEARCH_CACHE_TTL_MS })] *)
Definition cache_put (now : Z) (cacheKey : string) (d : SearchResponse)
    (searchCache : gmap string CacheEntry) : gmap string CacheEntry :=
  <[cacheKey := {| data := d; cache_expiresAt := now + SEARCH_CACHE_TTL_MS |}]> searchCache.

(** [Number(url.searchParams.get(k) || dflt)]: the parameter is [null]
    when absent. *)
Definition number_param (p : option string) (dflt : Z) : num :=
  match p with
  | Some s => if is_empty s then num_of_Z dflt else StringToNumber s
  | None => num_of_Z dflt
  end.

Definition cacheKey_of (query : string) (pg pgSize : num) : string :=
  JSON_stringify
    (Obj [("q", Str (toLowerCase query)); ("page", Num pg); ("pageSize", Num pgSize);
          ("region", Str (REGION cfg)); ("base", Str (OFF_BASE_URL cfg))]).

(** [error.message || "Server error"] *)
Definition error_body (e : Exn) : Body :=
  ErrorBody (if is_empty (message e) then "Server error" else message e).

(** The route [/api/search]. *)
Definition search_route (q page_p page_size_p : option string)
    (searchCache : gmap string CacheEntry) (n : Net)
  : Reply * gmap string CacheEntry * Net :=
  let pg := number_param page_p 1 in
  let pgSize := number_param page_size_p 12 in
  match q with
  | None => ({| code := 400; body := ErrorBody "Missing query" |}, searchCache, n)
  | Some query =>
      if is_empty query
      then ({| code := 400; body := ErrorBody "Missing query" |}, searchCache, n)
      else
        let cacheKey := cacheKey_of query pg pgSize in
        match cache_get (clock (world n)) cacheKey searchCache with
        | (Some d, searchCache') =>
            ({| code := 200; body := SearchBody d |}, searchCache', n)
        | (None, searchCache') =>
            match fetchFoods query (Num pg) (Num pgSize) n with
            | (Ok d, n') =>
                ({| code := 200; body := SearchBody d |},
                 cache_put (clock (world n')) cacheKey d searchCache', n')
            | (Throw e, n') =>
                ({| code := 500; body := error_body e |}, searchCache', n')
            end
        end
  end.

(** The [for] over [baseUrls] in [findFoodByBarcode]: [response] is
    assigned as soon as the request resolves, before the two checks. *)
Fixpoint barcode_loop (urls : list string) (barcode : string)
    (response : option HttpResponse) (lastError : option Exn) (n : Net)
  : option HttpResponse * option Exn * Net :=
  match urls with
  | [] => (response, lastError, n)
  | baseUrl :: rest =>
      match requestJson (OffProductRequest baseUrl barcode lc_es) n with
      | (Throw e, n') => barcode_loop rest barcode response (Some e) n'
      | (Ok r, n') =>
          if (status r <? 200) || (status r >=? 300)
          then barcode_loop rest barcode (Some r) (Some (off_error r)) n'
          else if negb (truthy (json r))
          then barcode_loop rest barcode (Some r) (Some (off_error r)) n'
          else (Some r, lastError, n')
      end
  end.

Definition not_found (barcode : string) : Exn :=
  NotFoundError ("Producto no encontrado para c" +:+ String o_acute "digo: " +:+ barcode).

Record Per100g : Type := {
  per_calories : num;
  per_protein : num;
  per_fat : num;
  per_carbohydrate : num
}.

(** [const per100g = {...}] *)
Definition per100g_of (nutriments : value) : Per100g :=
  {| per_calories := Math_round (nutrient nutriments "energy-kcal_100g" "energy-kcal");
     per_protein := Math_round (nutrient nutriments "proteins_100g" "proteins");
     per_fat := Math_round (nutrient nutriments "fat_100g" "fat");
     per_carbohydrate := Math_round (nutrient nutriments "carbohydrates_100g" "carbohydrates") |}.

(** The serving pushed first. *)
Definition serving_100g (per100g : Per100g) : Serving :=
  {| serving_description := Str "100g";
     calories := per_calories per100g;
     protein := per_protein per100g;
     fat := per_fat per100g;
     carbohydrate := per_carbohydrate per100g;
     metric_serving_amount := Fin 100;
     metric_serving_unit := "g" |}.

(** [servingMatch ? parseInt(servingMatch[1]) : 100] *)
Definition servingGrams_of (serving_size : string) : num :=
  match match_digits serving_size with
  | Some digits => parseInt digits
  | None => Fin 100
  end.

(** The serving pushed when [product.serving_size] is a truthy string. *)
Definition serving_scaled (per100g : Per100g) (serving_size : string) : Serving :=
  let servingGrams := servingGrams_of serving_size in
  let ratio := num_div servingGrams (Fin 100) in
  {| serving_description := Str serving_size;
     calories := Math_round_num (num_mul (per_calories per100g) ratio);
     protein := Math_round_num (num_mul (per_protein per100g) ratio);
     fat := Math_round_num (num_mul (per_fat per100g) ratio);
     carbohydrate := Math_round_num (num_mul (per_carbohydrate per100g) ratio);
     metric_serving_amount := servingGrams;
     metric_serving_unit := "g" |}.

(** The [servings] array: the 100g serving, then the scaled one under
    [if (product.serving_size)]; [.match] exists on strings only. *)
Definition servings_of (per100g : Per100g) (serving_size : value)
  : result (list Serving) :=
  if truthy serving_size then
    match serving_size with
    | Str s => Ok [serving_100g per100g; serving_scaled per100g s]
    | _ => Throw (TypeError "product.serving_size.match is not a function")
    end
  else Ok [serving_100g per100g].

(** [findFoodByBarcode] from [const product = response.json.product] on. *)
Definition barcode_product (barcode : string) (js : value) : result BarcodeProduct :=
  let product := get_opt js "product" in
  n0 ← get product "nutriments";
  let nutriments := or_else n0 (Obj []) in
  let imageUrl :=
    or_else (get_opt product "image_front_url")
      (or_else (get_opt product "image_url")
         (or_else (get_opt product "image_front_small_url") (Str ""))) in
  let per100g := per100g_of nutriments in
  svs ← servings_of per100g (get_opt product "serving_size");
  Ok {| food_id := barcode;
        food_name := or_else (get_opt product "product_name")
                       (or_else (get_opt product "product_name_es")
                          (Str ("Producto " +:+ barcode)));
        food_brand := or_else (get_opt product "brands")
                        (or_else (get_opt product "brand_owner") (Str ""));
        food_image_url := imageUrl;
        servings := svs |}.

(** [findFoodByBarcode] after the loop. *)
Definition barcode_after (barcode : string) (response : option HttpResponse)
    (lastError : option Exn) : result BarcodeProduct :=
  let failure :=
    match lastError with
    | Some e => e
    | None => UpstreamError "Open Food Facts error"
    end in
  match response with
  | None => Throw failure
  | Some r =>
      if negb (truthy (json r)) then Throw failure
      else if strict_neq_num (get_opt (json r) "status") (Fin 1)
      then Throw (not_found barcode)
      else barcode_product barcode (json r)
  end.

Definition findFoodByBarcode (barcode : string) (n : Net)
  : result BarcodeProduct * Net :=
  match barcode_loop baseUrls barcode None None n with
  | (response, lastError, n') => (barcode_after barcode response lastError, n')
  end.

(** [String(error.message || "").includes("Producto no encontrado") ? 404 : 500] *)
Definition barcode_error_status (e : Exn) : Z :=
  if includes not_found_marker (message e) then 404 else 500.

(** The route [/api/barcode]. *)
Definition barcode_route (barcode_p : option string) (n : Net) : Reply * Net :=
  match barcode_p with
  | None => ({| code := 400; body := ErrorBody "Missing barcode" |}, n)
  | Some barcode =>
      if is_empty barcode
      then ({| code := 400; body := ErrorBody "Missing barcode" |}, n)
      else
        match findFoodByBarcode barcode n with
        | (Ok product, n') => ({| code := 200; body := ProductBody product |}, n')
        | (Throw e, n') => ({| code := barcode_error_status e; body := error_body e |}, n')
        end
  end.

End Server.

(** ** Reading the behaviour of the fallback loop *)

Section Replay.
Context {rt : Runtime} {nw : Network}.

(** The answers the world gives when [reqs] are issued one after the
    other, and the network afterwards. *)
Fixpoint replay (reqs : list Request) (n : Net) : list Outcome * Net :=
  match reqs with
  | [] => ([], n)
  | r :: rest =>
      let (o, w) := send (world n) r in
      let (os, n') := replay rest {| world := w; sent := sent n ++ [r] |} in
      (o :: os, n')
  end.

(** An attempt that resolved with a status outside 200..299. *)
Definition rejected (o : Outcome) : bool :=
  match o with
  | Response st _ => negb (is_2xx st)
  | Failure _ => false
  end.

(** The body of the last answer, when there is one and it is a response. *)
Definition last_body (outs : list Outcome) : option string :=
  match last outs with
  | Some (Response _ tx) => Some tx
  | _ => None
  end.

(** [requestJson]'s view of a response. *)
Definition parsed (st : Z) (tx : string) : HttpResponse :=
  {| status := st; text := tx;
     json := match JSON_parse tx with Some v => v | None => Null end |}.

(** A linear scan over a list of requests, with the variables of
    [callGemini]: stop at the first 2xx status, else remember the body. *)
Fixpoint try_in_order (reqs : list Request) (response : option HttpResponse)
    (lastError : option string) (n : Net)
  : result (option HttpResponse * option string) * Net :=
  match reqs with
  | [] => (Ok (response, lastError), n)
  | rq :: rest =>
      match requestJson rq n with
      | (Throw e, n') => (Throw e, n')
      | (Ok r, n') =>
          if is_2xx (status r) then (Ok (Some r, lastError), n')
          else try_in_order rest (Some r) (Some (text r)) n'
      end
  end.

End Replay.

(** The (model, version) pairs in nested order: models outside, versions
    inside. *)
Definition candidate_pairs (models versions : list string) : list (string * string) :=
  flat_map (fun model => map (fun version => (model, version)) versions) models.

Definition gemini_request (cfg : Config) (payload : value) (p : string * string) : Request :=
  GeminiRequest (snd p) (fst p) (GEMINI_API_KEY cfg) payload.

(** ** A scripted environment for the examples *)

Definition dq : ascii := ascii_of_N 34.

(** [s] between double quotes. *)
Definition quoted (s : string) : string := String dq (s +:+ String dq "").

Definition text_status0 : string := "{" +:+ quoted "status" +:+ ":0}".
Definition text_a1 : string := "{" +:+ quoted "a" +:+ ":1}".
Definition text_token : string :=
  "{" +:+ quoted "access_token" +:+ ":" +:+ quoted "tok-2" +:+ ","
      +:+ quoted "expires_in" +:+ ":3600}".
Definition text_answer : string :=
  "{" +:+ quoted "candidates" +:+ ":[{" +:+ quoted "content" +:+ ":{"
      +:+ quoted "parts" +:+ ":[{" +:+ quoted "text" +:+ ":" +:+ quoted "ok" +:+ "}]}}]}".

Definition text_products : string :=
  "{" +:+ quoted "count" +:+ ":1," +:+ quoted "products" +:+ ":[{"
      +:+ quoted "code" +:+ ":" +:+ quoted "84" +:+ ","
      +:+ quoted "nutriments" +:+ ":{" +:+ quoted "energy-kcal_100g" +:+ ":-0.25,"
      +:+ quoted "proteins_100g" +:+ ":2.5," +:+ quoted "fat_100g" +:+ ":{}}}]}".
Definition text_product_250g : string :=
  "{" +:+ quoted "status" +:+ ":1," +:+ quoted "product" +:+ ":{"
      +:+ quoted "nutriments" +:+ ":{" +:+ quoted "energy-kcal_100g" +:+ ":0.5},"
      +:+ quoted "serving_size" +:+ ":" +:+ quoted "250g" +:+ "}}".
Definition text_product_blank : string :=
  "{" +:+ quoted "status" +:+ ":1," +:+ quoted "product" +:+ ":{"
      +:+ quoted "nutriments" +:+ ":{" +:+ quoted "energy-kcal_100g" +:+ ":0.5},"
      +:+ quoted "serving_size" +:+ ":" +:+ quoted "" +:+ "}}".

(** [JSON.parse] on the texts the examples receive; every other text the
    examples parse is not JSON. *)
Definition sample_parse (s : string) : option value :=
  if String.eqb s text_status0 then Some (Obj [("status", Num (Fin 0))])
  else if String.eqb s text_a1 then Some (Obj [("a", Num (Fin 1))])
  else if String.eqb s text_token
  then Some (Obj [("access_token", Str "tok-2"); ("expires_in", Num (Fin 3600))])
  else if String.eqb s text_answer
  then Some (Obj [("candidates",
                   Arr [Obj [("content", Obj [("parts", Arr [Obj [("text", Str "ok")]])])]])])
  else if String.eqb s text_products
  then Some (Obj [("count", Num (Fin 1));
                  ("products",
                   Arr [Obj [("code", Str "84");
                             ("nutriments",
                              Obj [("energy-kcal_100g", Num (Fin (-1 # 4)));
                                   ("proteins_100g", Num (Fin (5 # 2)));
                                   ("fat_100g", Obj [])])]])])
  else if String.eqb s text_product_250g
  then Some (Obj [("status", Num (Fin 1));
                  ("product",
                   Obj [("nutriments", Obj [("energy-kcal_100g", Num (Fin (1 # 2)))]);
                        ("serving_size", Str "250g")])])
  else if String.eqb s text_product_blank
  then Some (Obj [("status", Num (Fin 1));
                  ("product",
                   Obj [("nutriments", Obj [("energy-kcal_100g", Num (Fin (1 # 2)))]);
                        ("serving_size", Str "")])])
  else if String.eqb s "null" then Some Null
  else None.

(** ToNumber on the empty string and on strings of decimal digits; the
    examples convert no other string. *)
Definition sample_StringToNumber (s : string) : num :=
  if is_empty s then Fin 0
  else if String.eqb (take_digits s) s then parseInt s else NaN.

(** [JSON.stringify] on the values the examples serialise: strings that
    need no escape, integers, and arrays and objects of these. *)
Fixpoint sample_stringify (v : value) : string :=
  match v with
  | Undefined => ""
  | Null => "null"
  | Bool b => if b then "true" else "false"
  | Num (Fin q) => pretty (Qfloor q)
  | Num NegZero => "0"
  | Num _ => "null"
  | Str s => quoted s
  | Arr l =>
      "[" +:+ (fix elems (l : list value) : string :=
                 match l with
                 | [] => ""
                 | x :: r =>
                     sample_stringify x
                     +:+ match r with [] => "" | _ => "," +:+ elems r end
                 end) l +:+ "]"
  | Obj fs =>
      "{" +:+ (fix members (fs : list (string * value)) : string :=
                 match fs with
                 | [] => ""
                 | (k, x) :: r =>
                     quoted k +:+ ":" +:+ sample_stringify x
                     +:+ match r with [] => "" | _ => "," +:+ members r end
                 end) fs +:+ "}"
  end.

(** The built-ins on the inputs of the examples, which convert no number
    and no array: a plain object converts to NaN and to the string
    below. *)
#[local] Instance sample_runtime : Runtime := {
  JSON_parse := sample_parse;
  StringToNumber := sample_StringToNumber;
  ObjectToNumber := fun _ => NaN;
  ObjectToString := fun _ => "[object Object]";
  JSON_stringify := sample_stringify
}.

(** A world that serves a fixed list of answers, whatever is asked, and
    whose clock stands still. *)
Record Script : Type := {
  answers : list Outcome;
  time : Z
}.

#[local] Instance sample_network : Network := {
  World := Script;
  send := fun w _ =>
    match answers w with
    | o :: rest => (o, {| answers := rest; time := time w |})
    | [] => (Failure "ECONNREFUSED", w)
    end;
  clock := time
}.

Definition script (outs : list Outcome) (t : Z) : Net :=
  {| world := {| answers := outs; time := t |}; sent := [] |}.

Definition sample_cfg : Config :=
  {| CLIENT_ID := "id";
     CLIENT_SECRET := "secret";
     REGION := "ES";
     OFF_BASE_URL := "https://es.openfoodfacts.org";
     OFF_STRICT_COUNTRY := false;
     GEMINI_API_KEY := Str "k";
     GEMINI_MODELS := ["m1"; "m2"];
     GEMINI_API_VERSIONS := ["v1"; "v1beta"] |}.

(** * Properties *)

(** ** The Gemini fallback loop *)

Section GeminiFacts.
Context {rt : Runtime} {nw : Network}.
Variable cfg : Config.

Lemma requestJson_send r n :
  requestJson r n =
  match send (world n) r with
  | (Response st tx, w) =>
      (Ok (parsed st tx), {| world := w; sent := sent n ++ [r] |})
  | (Failure m, w) =>
      (Throw (TransportError m), {| world := w; sent := sent n ++ [r] |})
  end.
Proof.
  unfold requestJson, requestText.
  destruct (send (world n) r) as [[st tx|m] w]; reflexivity.
Qed.

(** The inner loop is the linear scan over the versions of one model. *)
Lemma gemini_versions_scan payload model versions response lastError n :
  gemini_versions cfg payload model versions response lastError n =
  try_in_order (map (fun v => gemini_request cfg payload (model, v)) versions)
    response lastError n.
Proof.
  revert response lastError n.
  induction versions as [|v vs IH]; intros response lastError n; simpl.
  - reflexivity.
  - unfold gemini_request at 1; simpl.
    destruct (requestJson _ n) as [[r|e] n']; [|reflexivity].
    destruct (is_2xx (status r)); [reflexivity|apply IH].
Qed.

(** A scan that starts without a success ends with one only by stopping
    at it. *)
Lemma try_in_order_app a b response lastError n :
  succeeded response = false ->
  try_in_order (a ++ b) response lastError n =
  match try_in_order a response lastError n with
  | (Throw e, n') => (Throw e, n')
  | (Ok (response', lastError'), n') =>
      if succeeded response' then (Ok (response', lastError'), n')
      else try_in_order b response' lastError' n'
  end.
Proof.
  revert response lastError n.
  induction a as [|rq a IH]; intros response lastError n Hs; simpl.
  - rewrite Hs. reflexivity.
  - destruct (requestJson rq n) as [[r|e] n']; [|reflexivity].
    destruct (is_2xx (status r)) eqn:E.
    + simpl. rewrite E. reflexivity.
    + apply IH. exact E.
Qed.

(** The two nested loops are the linear scan over the pairs in nested
    order. *)
Lemma gemini_models_scan payload models response lastError n :
  succeeded response = false ->
  gemini_models cfg payload models response lastError n =
  try_in_order
    (map (gemini_request cfg payload) (candidate_pairs models (GEMINI_API_VERSIONS cfg)))
    response lastError n.
Proof.
  revert response lastError n.
  induction models as [|m ms IH]; intros response lastError n Hs.
  - reflexivity.
  - cbn [gemini_models candidate_pairs flat_map].
    rewrite map_app, map_map, (try_in_order_app _ _ _ _ _ Hs).
    rewrite gemini_versions_scan.
    destruct (try_in_order _ response lastError n) as [[[response' lastError']|e] n'];
      [|reflexivity].
    destruct (succeeded response') eqn:E; [reflexivity|].
    apply IH. exact E.
Qed.

(** The state of the scan after a run of rejected attempts. *)
Definition after_rejected (outs : list Outcome)
    (response : option HttpResponse) (lastError : option string)
  : option HttpResponse * option string :=
  match last outs with
  | Some (Response st tx) => (Some (parsed st tx), Some tx)
  | _ => (response, lastError)
  end.

Lemma try_in_order_rejected pre post response lastError n outs n1 :
  replay pre n = (outs, n1) ->
  forallb rejected outs = true ->
  try_in_order (pre ++ post) response lastError n =
  try_in_order post (fst (after_rejected outs response lastError))
    (snd (after_rejected outs response lastError)) n1.
Proof.
  revert response lastError n outs.
  induction pre as [|rq pre IH]; intros response lastError n outs Hr Hall.
  - simpl in Hr. injection Hr as <- <-. reflexivity.
  - simpl in Hr. simpl. rewrite requestJson_send.
    destruct (send (world n) rq) as [o w].
    destruct (replay pre _) as [os n2] eqn:Hrep.
    injection Hr as <- <-.
    simpl in Hall. apply andb_prop in Hall as [Ho Hos].
    destruct o as [st tx|m]; [|discriminate].
    simpl in Ho. apply negb_true_iff in Ho.
    cbn [status parsed]. rewrite Ho. cbn [text].
    rewrite (IH _ _ _ _ Hrep Hos).
    unfold after_rejected.
    destruct os as [|o' os']; [reflexivity|].
    change (last (Response st tx :: o' :: os')) with (last (o' :: os')).
    destruct (last (o' :: os')) as [[st' tx'|m']|] eqn:El; try reflexivity.
    + exfalso. apply last_Some in El as [l' El].
      rewrite El in Hos. rewrite forallb_app in Hos.
      apply andb_prop in Hos as [_ Hos]. simpl in Hos. discriminate.
    + exfalso. apply last_None in El. discriminate.
Qed.

Lemma replay_sent reqs n outs n1 :
  replay reqs n = (outs, n1) -> sent n1 = sent n ++ reqs.
Proof.
  revert n outs. induction reqs as [|r rs IH]; intros n outs H; simpl in H.
  - injection H as <- <-. symmetry. apply app_nil_r.
  - destruct (send (world n) r) as [o w].
    destruct (replay rs _) as [os n2] eqn:E.
    injection H as <- <-.
    rewrite (IH _ _ E). simpl. rewrite <- app_assoc. reflexivity.
Qed.

(** A scan that ends without a success and without a rejection by the
    transport issued every request and every answer was a non-2xx
    response. *)
Lemma try_in_order_exhausted reqs response lastError n response' lastError' n' :
  succeeded response = false ->
  try_in_order reqs response lastError n = (Ok (response', lastError'), n') ->
  succeeded response' = false ->
  exists outs, replay reqs n = (outs, n') /\ forallb rejected outs = true.
Proof.
  revert response lastError n.
  induction reqs as [|rq rs IH]; intros response lastError n Hs H Hs'; simpl in H.
  - injection H as <- <- <-. exists []. split; reflexivity.
  - rewrite requestJson_send in H. simpl.
    destruct (send (world n) rq) as [[st tx|m] w]; [|discriminate].
    cbn [status parsed text] in H.
    destruct (is_2xx st) eqn:E.
    + injection H as <- <- <-. simpl in Hs'. congruence.
    + destruct (IH (Some (parsed st tx)) _ _ E H Hs') as (os & Hrep & Hall).
      rewrite Hrep. exists (Response st tx :: os). split; [reflexivity|].
      simpl. rewrite E, Hall. reflexivity.
Qed.

(** The scan itself never raises the error of the exhausted loop. *)
Lemma try_in_order_throw reqs response lastError n e n' :
  try_in_order reqs response lastError n = (Throw e, n') ->
  exists m, e = TransportError m.
Proof.
  revert response lastError n.
  induction reqs as [|rq rs IH]; intros response lastError n H; simpl in H.
  - discriminate.
  - rewrite requestJson_send in H.
    destruct (send (world n) rq) as [[st tx|m] w].
    + cbn [status parsed text] in H.
      destruct (is_2xx st); [discriminate|]. eapply IH, H.
    + injection H as <- <-. eauto.
Qed.

Lemma callGemini_scan payload n :
  callGemini cfg payload n =
  match try_in_order
          (map (gemini_request cfg payload)
             (candidate_pairs (GEMINI_MODELS cfg) (GEMINI_API_VERSIONS cfg)))
          None None n with
  | (Throw e, n') => (Throw e, n')
  | (Ok (response, lastError), n') =>
      match response with
      | Some r =>
          if is_2xx (status r) then (Ok (gemini_text r), n')
          else (Throw (GenerationError (gemini_message lastError)), n')
      | None => (Throw (GenerationError (gemini_message lastError)), n')
      end
  end.
Proof.
  unfold callGemini. rewrite gemini_models_scan by reflexivity. reflexivity.
Qed.

Lemma last_rejected outs st tx :
  forallb rejected outs = true ->
  last outs = Some (Response st tx) -> is_2xx st = false.
Proof.
  intros Hall El. apply last_Some in El as [l' ->].
  rewrite forallb_app in Hall. apply andb_prop in Hall as [_ Hall].
  simpl in Hall. rewrite andb_true_r in Hall. apply negb_true_iff in Hall.
  exact Hall.
Qed.

(** C1 (amended).  With [reqs] the requests for the (model, version) pairs
    in nested order (models outside, versions inside): while the answers
    are responses with a status outside 200..299, [callGemini] issues
    [reqs] in that order; at the first 2xx answer it returns that
    response's text and has issued nothing after it; when every request
    was answered and rejected it throws the error of the exhausted loop,
    whose message is the body of the last answer if that body is not
    empty and ["Gemini error"] otherwise (also when there is no pair).
    Conversely that error is thrown only after every pair was tried and
    rejected. *)
Theorem callGemini_fallback_order :
  (forall payload n pre post outs n1,
     candidate_pairs (GEMINI_MODELS cfg) (GEMINI_API_VERSIONS cfg) = pre ++ post ->
     replay (map (gemini_request cfg payload) pre) n = (outs, n1) ->
     forallb rejected outs = true ->
     (forall p post' st tx w,
        post = p :: post' ->
        send (world n1) (gemini_request cfg payload p) = (Response st tx, w) ->
        is_2xx st = true ->
        callGemini cfg payload n =
        (Ok (gemini_text (parsed st tx)),
         {| world := w;
            sent := sent n ++ map (gemini_request cfg payload) (pre ++ [p]) |}))
     /\ (post = [] ->
         callGemini cfg payload n =
         (Throw (GenerationError (gemini_message (last_body outs))), n1)
         /\ sent n1 = sent n ++ map (gemini_request cfg payload) pre))
  /\ (forall payload n m n',
        callGemini cfg payload n = (Throw (GenerationError m), n') ->
        exists outs,
          replay (map (gemini_request cfg payload)
                    (candidate_pairs (GEMINI_MODELS cfg) (GEMINI_API_VERSIONS cfg))) n
          = (outs, n')
          /\ forallb rejected outs = true
          /\ m = gemini_message (last_body outs)).
Proof.
  split.
  - intros payload n pre post outs n1 Hsplit Hrep Hall.
    pose proof (replay_sent _ _ _ _ Hrep) as Hsent.
    split.
    + intros p post' st tx w -> Hsend H2.
      rewrite callGemini_scan, Hsplit, map_app.
      rewrite (try_in_order_rejected _ _ _ _ _ _ _ Hrep Hall).
      cbn [map try_in_order]. rewrite requestJson_send, Hsend.
      cbn [status parsed]. rewrite H2.
      change (status (parsed st tx)) with st. rewrite H2.
      rewrite Hsent, map_app, app_assoc. reflexivity.
    + intros ->. split; [|exact Hsent].
      rewrite callGemini_scan, Hsplit, map_app.
      rewrite (try_in_order_rejected _ _ _ _ _ _ _ Hrep Hall).
      cbn [map try_in_order]. unfold after_rejected, last_body.
      destruct (last outs) as [[st tx|m]|] eqn:El; cbn [fst snd]; try reflexivity.
      cbn [status parsed]. rewrite (last_rejected _ _ _ Hall El). reflexivity.
  - intros payload n m n' H.
    rewrite callGemini_scan in H.
    destruct (try_in_order _ None None n) as [[[response lastError]|e] n2] eqn:Et.
    + assert (Hs : succeeded response = false /\
                   (Throw (GenerationError (gemini_message lastError)), n2)
                   = (Throw (A := value) (GenerationError m), n')).
      { destruct response as [r|]; [|split; [reflexivity|exact H]].
        simpl. destruct (is_2xx (status r)); [discriminate|].
        split; [reflexivity|exact H]. }
      destruct Hs as [Hs Heq]. injection Heq as <- <-.
      destruct (try_in_order_exhausted _ None None _ _ _ _ eq_refl Et Hs)
        as (outs & Hrep & Hall).
      exists outs. split; [exact Hrep|]. split; [exact Hall|].
      pose proof (try_in_order_rejected _ [] None None _ _ _ Hrep Hall) as Hr.
      rewrite app_nil_r, Et in Hr. cbn [try_in_order] in Hr.
      injection Hr as -> ->.
      unfold after_rejected, last_body.
      destruct (last outs) as [[st tx|m]|]; reflexivity.
    + apply try_in_order_throw in Et as [m' ->]. discriminate.
Qed.

End GeminiFacts.

(** With two models and two versions, a 500 on the first pair and a 200
    on the second: the text of the second answer is returned and the two
    remaining pairs are never requested. *)
Lemma callGemini_fallback_order_witness :
  callGemini sample_cfg Null
    (script [Response 500 "boom"; Response 200 text_answer; Response 200 ""] 0)
  = (Ok (Str "ok"),
     {| world := {| answers := [Response 200 ""]; time := 0 |};
        sent := [GeminiRequest "v1" "m1" (Str "k") Null;
                 GeminiRequest "v1beta" "m1" (Str "k") Null] |}).
Proof.
  exact (proj1
           (proj1 (callGemini_fallback_order sample_cfg) Null
              (script [Response 500 "boom"; Response 200 text_answer; Response 200 ""] 0)
              [("m1", "v1")] [("m1", "v1beta"); ("m2", "v1"); ("m2", "v1beta")]
              [Response 500 "boom"] _ eq_refl eq_refl eq_refl)
           ("m1", "v1beta") [("m2", "v1"); ("m2", "v1beta")] 200 text_answer _
           eq_refl eq_refl eq_refl).
Defined.

(** C1 as stated fails: when the last rejected attempt has an empty body
    the error does not carry that body (nor an earlier one) but the
    default message. *)
Lemma callGemini_empty_body_counterexample :
  let n := script [Response 500 "first"; Response 503 "second";
                   Response 500 "third"; Response 404 ""] 0 in
  let reqs := map (gemini_request sample_cfg Null)
                (candidate_pairs (GEMINI_MODELS sample_cfg) (GEMINI_API_VERSIONS sample_cfg)) in
  last_body (fst (replay reqs n)) = Some ""
  /\ fst (callGemini sample_cfg Null n) = Throw (GenerationError "Gemini error")
  /\ fst (callGemini sample_cfg Null n) <> Throw (GenerationError "").
Proof.
  split; [reflexivity|]. split; [reflexivity|]. discriminate.
Qed.

(** ** The token cache *)

(** The exchange did not produce a 2xx response. *)
Definition exchange_failed (o : Outcome) : bool :=
  match o with
  | Response st _ => negb (is_2xx st)
  | Failure _ => true
  end.

Definition nullish (v : value) : bool :=
  match v with
  | Undefined | Null => true
  | _ => false
  end.

(** The request of the client-credentials exchange. *)
Definition exchange_of (cfg : Config) : Request :=
  TokenRequest (CLIENT_ID cfg) (CLIENT_SECRET cfg).

Section TokenFacts.
Context {rt : Runtime} {nw : Network}.
Variable cfg : Config.

Abbreviation exchange := (exchange_of cfg).

Lemma not_2xx st : (st <? 200) || (st >=? 300) = negb (is_2xx st).
Proof. unfold is_2xx. lia. Qed.

(** [getAccessToken] when the cached token is not reused. *)
Lemma getAccessToken_exchange tokenCache n :
  truthy (token tokenCache)
  && num_lt (num_of_Z (clock (world n)))
       (num_sub (expiresAt tokenCache) (num_of_Z 10000)) = false ->
  getAccessToken cfg tokenCache n =
  let n' w := {| world := w; sent := sent n ++ [exchange] |} in
  match send (world n) exchange with
  | (Failure m, w) => (Throw (TransportError m), tokenCache, n' w)
  | (Response st tx, w) =>
      if is_2xx st then
        match get (json (parsed st tx)) "access_token" with
        | Throw e => (Throw e, tokenCache, n' w)
        | Ok access_token =>
            (Ok access_token,
             {| token := access_token;
                expiresAt :=
                  num_add (num_of_Z (clock (world n)))
                    (num_mul (ToNumber (get_opt (json (parsed st tx)) "expires_in"))
                       (num_of_Z 1000)) |},
             n' w)
        end
      else (Throw (AuthError ("FatSecret token error: " +:+ tx)), tokenCache, n' w)
  end.
Proof.
  intros Hstale. unfold getAccessToken. rewrite Hstale.
  rewrite requestJson_send. fold (exchange_of cfg).
  destruct (send (world n) exchange) as [[st tx|m] w]; [|reflexivity].
  rewrite not_2xx. change (status (parsed st tx)) with st.
  destruct (is_2xx st); reflexivity.
Qed.

(** C2 (amended).  When a truthy token is cached and
    [now < expiresAt - 10000], [getAccessToken] returns that token and
    issues no request and leaves the cache as it is.  Otherwise it issues
    the credential exchange, and when the answer is a 2xx response whose
    body parses to a value other than [null] it stores the [access_token]
    of the body with [expiresAt = now + expires_in * 1000] and returns
    that token. *)
Theorem getAccessToken_cached_or_exchanged tokenCache n :
  let now := num_of_Z (clock (world n)) in
  let fresh := truthy (token tokenCache)
               && num_lt now (num_sub (expiresAt tokenCache) (num_of_Z 10000)) in
  (fresh = true ->
   getAccessToken cfg tokenCache n = (Ok (token tokenCache), tokenCache, n))
  /\ (fresh = false ->
      sent (snd (getAccessToken cfg tokenCache n)) = sent n ++ [exchange]
      /\ forall st tx w data,
           send (world n) exchange = (Response st tx, w) ->
           is_2xx st = true ->
           JSON_parse tx = Some data ->
           nullish data = false ->
           getAccessToken cfg tokenCache n =
           (Ok (get_opt data "access_token"),
            {| token := get_opt data "access_token";
               expiresAt :=
                 num_add now
                   (num_mul (ToNumber (get_opt data "expires_in")) (num_of_Z 1000)) |},
            {| world := w; sent := sent n ++ [exchange] |})).
Proof.
  intros now fresh. split.
  - intros Hf. unfold getAccessToken. fold now. fold fresh. rewrite Hf. reflexivity.
  - intros Hf. rewrite (getAccessToken_exchange _ _ Hf). split.
    + destruct (send (world n) exchange) as [[st tx|m] w]; [|reflexivity].
      destruct (is_2xx st); [|reflexivity].
      destruct (get _ _); reflexivity.
    + intros st tx w data Hsend H2 Hp Hn. rewrite Hsend, H2.
      unfold parsed. cbn [json]. rewrite Hp.
      destruct data; try discriminate; reflexivity.
Qed.

(** C9.  When the credential exchange fails, by a transport error or a
    status outside 200..299, the token cache after the call is the token
    cache before it. *)
Theorem getAccessToken_failure_keeps_cache tokenCache n o w :
  send (world n) exchange = (o, w) ->
  exchange_failed o = true ->
  snd (fst (getAccessToken cfg tokenCache n)) = tokenCache.
Proof.
  intros Hsend Hfail.
  destruct (truthy (token tokenCache)
            && num_lt (num_of_Z (clock (world n)))
                 (num_sub (expiresAt tokenCache) (num_of_Z 10000))) eqn:Hf.
  - unfold getAccessToken. rewrite Hf. reflexivity.
  - rewrite (getAccessToken_exchange _ _ Hf), Hsend.
    destruct o as [st tx|m]; [|reflexivity].
    simpl in Hfail. apply negb_true_iff in Hfail. rewrite Hfail. reflexivity.
Qed.

(** Every throwing call leaves the cache as it was, also the [TypeError]
    of a 2xx answer without a JSON body. *)
Lemma getAccessToken_throw_keeps_cache tokenCache n e :
  fst (fst (getAccessToken cfg tokenCache n)) = Throw e ->
  snd (fst (getAccessToken cfg tokenCache n)) = tokenCache.
Proof.
  destruct (truthy (token tokenCache)
            && num_lt (num_of_Z (clock (world n)))
                 (num_sub (expiresAt tokenCache) (num_of_Z 10000))) eqn:Hf.
  - unfold getAccessToken. rewrite Hf. reflexivity.
  - rewrite (getAccessToken_exchange _ _ Hf).
    destruct (send (world n) exchange) as [[st tx|m] w]; [|reflexivity].
    destruct (is_2xx st); [|reflexivity].
    destruct (get _ _); [discriminate|reflexivity].
Qed.

End TokenFacts.

(** A token cached until t = 100000 is reused at t = 50000 without a
    request; at t = 95000, inside the ten seconds margin, the exchange is
    made and its answer stored. *)
Lemma getAccessToken_cached_or_exchanged_witness :
  let cached := {| token := Str "tok-1"; expiresAt := Fin 100000 |} in
  getAccessToken sample_cfg cached (script [Response 200 text_token] 50000)
  = (Ok (Str "tok-1"), cached, script [Response 200 text_token] 50000)
  /\ getAccessToken sample_cfg cached (script [Response 200 text_token] 95000)
     = (Ok (Str "tok-2"),
        {| token := Str "tok-2";
           expiresAt := num_add (num_of_Z 95000) (num_mul (Fin 3600) (num_of_Z 1000)) |},
        {| world := {| answers := []; time := 95000 |};
           sent := [TokenRequest "id" "secret"] |}).
Proof.
  intros cached. split.
  - exact (proj1 (getAccessToken_cached_or_exchanged sample_cfg cached
                    (script [Response 200 text_token] 50000)) eq_refl).
  - exact (proj2 (proj2 (getAccessToken_cached_or_exchanged sample_cfg cached
                           (script [Response 200 text_token] 95000)) eq_refl)
             200 text_token {| answers := []; time := 95000 |}
             (Obj [("access_token", Str "tok-2"); ("expires_in", Num (Fin 3600))])
             eq_refl eq_refl eq_refl eq_refl).
Defined.

(** C2 as stated fails: a 2xx answer whose body is not JSON makes the call
    throw; nothing is stored and no token is returned. *)
Lemma getAccessToken_unparseable_counterexample :
  getAccessToken sample_cfg tokenCache0 (script [Response 200 "oops"] 0)
  = (Throw (TypeError "Cannot read properties of null (reading 'access_token')"),
     tokenCache0,
     {| world := {| answers := []; time := 0 |};
        sent := [TokenRequest "id" "secret"] |}).
Proof. reflexivity. Qed.

(** A 401 on the exchange leaves the stale token in the cache. *)
Lemma getAccessToken_failure_keeps_cache_witness :
  let stale := {| token := Str "tok-1"; expiresAt := Fin 100000 |} in
  snd (fst (getAccessToken sample_cfg stale (script [Response 401 "denied"] 200000)))
  = stale.
Proof.
  intros stale.
  exact (getAccessToken_failure_keeps_cache sample_cfg stale
           (script [Response 401 "denied"] 200000)
           (Response 401 "denied") {| answers := []; time := 200000 |}
           eq_refl eq_refl).
Defined.

(** ** Numbers: comparison and rounding *)

Lemma Qltb_true a b : Qltb a b = true <-> (a < b)%Q.
Proof.
  unfold Qltb. rewrite negb_true_iff. split.
  - intros H. apply Qnot_le_lt. intros Hle.
    apply Qle_bool_iff in Hle. congruence.
  - intros H. destruct (Qle_bool b a) eqn:E; [|reflexivity].
    apply Qle_bool_iff in E. lra.
Qed.

Lemma Qltb_false a b : Qltb a b = false <-> (b <= a)%Q.
Proof.
  unfold Qltb. rewrite negb_false_iff. apply Qle_bool_iff.
Qed.


(** ** Search: paging and nutrient fields *)


Definition reply_pageSize (r : Reply) : option num :=
  match body r with
  | SearchBody d => Some (pageSize d)
  | _ => None
  end.

Section SearchFacts.
Context {rt : Runtime} {nw : Network}.
Variable cfg : Config.

Lemma safePageSize_range req_size :
  num_gt (safePageSize req_size) (Fin 0) = true
  /\ num_ge (Fin 50) (safePageSize req_size) = true.
Proof.
  unfold safePageSize.
  set (x := ToNumber match req_size with Undefined => Num (Fin 12) | _ => req_size end).
  clearbody x.
  destruct (num_gt x (Fin 0)) eqn:Hpos; [|split; reflexivity].
  destruct x as [| [|] | |q]; try discriminate.
  - split; reflexivity.
  - unfold num_gt, num_lt in Hpos. cbn [fin_value] in Hpos.
    unfold Math_min, num_lt. cbn [fin_value].
    destruct (Qltb q 50) eqn:E1.
    + split.
      * exact Hpos.
      * unfold num_ge, num_lt. cbn [fin_value].
        apply negb_true_iff, Qltb_false. apply Qltb_true in E1. lra.
    + destruct (Qltb 50 q) eqn:E2; [split; reflexivity|].
      unfold sign_neg. destruct (Qltb q 0); split; try reflexivity.
      * exact Hpos.
      * unfold num_ge, num_lt. cbn [fin_value].
        apply negb_true_iff, Qltb_false. apply Qltb_false in E2. exact E2.
Qed.

Lemma fetchFoods_reports query req_page req_size n r n' :
  fetchFoods cfg query req_page req_size n = (Ok r, n') ->
  page r = safePage req_page /\ pageSize r = safePageSize req_size.
Proof.
  unfold fetchFoods.
  destruct (search_loop _ _ _ _ _ _ _) as [[[searchJson|] lastError] n1];
    [|discriminate].
  destruct (products_map _); [|discriminate].
  intros H. injection H as <- <-. split; reflexivity.
Qed.

(** C5 (amended).  The effective page is the requested page when it is
    positive and 1 otherwise, also when the argument is missing.  The
    effective page size lies in (0, 50]: a requested size of 50 or more
    becomes 50, a positive size below 50 is kept (1 and fractions
    included), a size that is not positive (zero, negative, NaN) becomes
    20, and a missing argument becomes 12.  A successful [fetchFoods]
    reports exactly these two values. *)
Theorem fetchFoods_effective_paging :
  (forall p, num_gt p (Fin 0) = true -> safePage (Num p) = p)
  /\ (forall p, num_gt p (Fin 0) = false -> safePage (Num p) = Fin 1)
  /\ safePage Undefined = Fin 1
  /\ (forall s, num_gt s (Fin 0) = true -> num_lt s (Fin 50) = true ->
       safePageSize (Num s) = s)
  /\ (forall s, num_ge s (Fin 50) = true -> safePageSize (Num s) = Fin 50)
  /\ (forall s, num_gt s (Fin 0) = false -> safePageSize (Num s) = Fin 20)
  /\ safePageSize Undefined = Fin 12
  /\ (forall req_size,
        num_gt (safePageSize req_size) (Fin 0) = true
        /\ num_ge (Fin 50) (safePageSize req_size) = true)
  /\ (forall query req_page req_size n r n',
        fetchFoods cfg query req_page req_size n = (Ok r, n') ->
        page r = safePage req_page /\ pageSize r = safePageSize req_size).
Proof.
  split.
  { intros p H. unfold safePage. cbn [ToNumber]. rewrite H. reflexivity. }
  split.
  { intros p H. unfold safePage. cbn [ToNumber]. rewrite H. reflexivity. }
  split; [reflexivity|].
  split.
  { intros s Hpos Hlt. unfold safePageSize. cbn [ToNumber]. rewrite Hpos.
    unfold Math_min. rewrite Hlt. destruct s; try discriminate; reflexivity. }
  split.
  { intros s H50. unfold safePageSize. cbn [ToNumber].
    destruct s as [| [|] | |q]; try discriminate; try reflexivity.
    unfold num_ge, num_lt in H50. cbn [fin_value] in H50.
    apply negb_true_iff, Qltb_false in H50.
    assert (Hpos : num_gt (Fin q) (Fin 0) = true).
    { unfold num_gt, num_lt. cbn [fin_value]. apply Qltb_true. lra. }
    rewrite Hpos. unfold Math_min, num_lt. cbn [fin_value].
    assert (E1 : Qltb q 50 = false) by (apply Qltb_false; exact H50).
    rewrite E1. destruct (Qltb 50 q); [reflexivity|].
    unfold sign_neg.
    assert (E0 : Qltb q 0 = false) by (apply Qltb_false; lra).
    rewrite E0. reflexivity. }
  split.
  { intros s H. unfold safePageSize. cbn [ToNumber]. rewrite H. reflexivity. }
  split; [reflexivity|].
  split; [apply safePageSize_range|].
  intros query req_page req_size n r n' H.
  eapply fetchFoods_reports; eassumption.
Qed.

Lemma map_items_In products its it :
  map_items products = Ok its -> In it its ->
  exists item, In item products /\ search_item item = Ok it.
Proof.
  revert its. induction products as [|item rest IH]; intros its H Hin; simpl in H.
  - injection H as <-. destruct Hin.
  - destruct (search_item item) as [it0|e] eqn:E0; [|discriminate].
    destruct (map_items rest) as [its0|e] eqn:E1; [|discriminate].
    simpl in H. injection H as <-.
    destruct Hin as [<-|Hin].
    + exists item. split; [left; reflexivity|exact E0].
    + destruct (IH _ eq_refl Hin) as (item' & Hin' & Hit).
      exists item'. split; [right; exact Hin'|exact Hit].
Qed.


End SearchFacts.

(** A positive page, a size above the cap, a negative size, and the paging
    reported by a search. *)
Lemma fetchFoods_effective_paging_witness :
  safePage (Num (Fin 3)) = Fin 3
  /\ safePageSize (Num (Fin 200)) = Fin 50
  /\ safePageSize (Num (Fin (-4))) = Fin 20
  /\ match fetchFoods sample_cfg "leche" (Num (Fin 1)) (Num (Fin 2))
             (script [Response 200 text_products] 0) with
     | (Ok r, _) => page r = Fin 1 /\ pageSize r = Fin 2
     | (Throw _, _) => False
     end.
Proof.
  pose proof (@fetchFoods_effective_paging sample_runtime sample_network sample_cfg)
    as (Hp & _ & _ & Hs & H50 & H20 & _ & _ & Hr).
  split; [exact (Hp (Fin 3) eq_refl)|].
  split; [exact (H50 (Fin 200) eq_refl)|].
  split; [exact (H20 (Fin (-4)) eq_refl)|].
  destruct (fetchFoods sample_cfg "leche" (Num (Fin 1)) (Num (Fin 2))
              (script [Response 200 text_products] 0)) as [[r|e] n'] eqn:E.
  - exact (Hr "leche" (Num (Fin 1)) (Num (Fin 2)) _ r n' E).
  - vm_compute in E. discriminate E.
Defined.

(** C5 as stated fails: a requested page size of 1 is kept, so the
    effective size is not above 1; and a request without [page_size] is
    served with 12 items per page, not 20. *)
Lemma safePageSize_counterexample :
  safePageSize (rt := sample_runtime) (Num (Fin 1)) = Fin 1
  /\ num_gt (Fin 1) (Fin 1) = false
  /\ safePageSize (rt := sample_runtime) Undefined = Fin 12
  /\ reply_pageSize
       (fst (fst (search_route sample_cfg (Some "leche") None None ∅
                    (script [Response 200 text_products] 0))))
     = Some (Fin 12).
Proof. repeat split. Qed.



(** ** The search cache *)

Section CacheFacts.
Context {rt : Runtime} {nw : Network}.
Variable cfg : Config.


(** The route answers a hit from the cache: status 200 with the cached
    response, no request, the cache unchanged. *)
Lemma search_route_hit query page_p size_p (searchCache : gmap string CacheEntry) n e :
  is_empty query = false ->
  searchCache !! cacheKey_of cfg query (number_param page_p 1) (number_param size_p 12)
  = Some e ->
  clock (world n) < cache_expiresAt e ->
  search_route cfg (Some query) page_p size_p searchCache n
  = ({| code := 200; body := SearchBody (data e) |}, searchCache, n).
Proof.
  intros Hq Hl Hlt. unfold search_route. rewrite Hq.
  unfold cache_get. rewrite Hl.
  destruct (Z.gtb_spec (cache_expiresAt e) (clock (world n))); [reflexivity|lia].
Qed.

(** After a miss on an expired entry and a failed fetch the key is no
    longer in the cache. *)
Lemma search_route_expired query page_p size_p (searchCache : gmap string CacheEntry) n e :
  is_empty query = false ->
  let key := cacheKey_of cfg query (number_param page_p 1) (number_param size_p 12) in
  searchCache !! key = Some e ->
  cache_expiresAt e <= clock (world n) ->
  forall err n',
    fetchFoods cfg query (Num (number_param page_p 1)) (Num (number_param size_p 12)) n
    = (Throw err, n') ->
    search_route cfg (Some query) page_p size_p searchCache n
    = ({| code := 500; body := error_body err |}, delete key searchCache, n').
Proof.
  intros Hq key Hl Hexp err n' Hf. unfold search_route. rewrite Hq.
  fold key. unfold cache_get. rewrite Hl.
  destruct (Z.gtb_spec (cache_expiresAt e) (clock (world n))); [lia|].
  rewrite Hf. reflexivity.
Qed.

(** On a miss the route fetches with the numbers read from the query
    string, 1 and 12 standing for an absent [page] and [page_size], stores
    the answer and reports the effective paging. *)
Lemma search_route_miss query page_p size_p (searchCache : gmap string CacheEntry) n d n' :
  is_empty query = false ->
  let pg := number_param page_p 1 in
  let pgSize := number_param size_p 12 in
  let key := cacheKey_of cfg query pg pgSize in
  fst (cache_get (clock (world n)) key searchCache) = None ->
  fetchFoods cfg query (Num pg) (Num pgSize) n = (Ok d, n') ->
  search_route cfg (Some query) page_p size_p searchCache n
  = ({| code := 200; body := SearchBody d |},
     cache_put (clock (world n')) key d
       (snd (cache_get (clock (world n)) key searchCache)), n')
  /\ page d = safePage (Num pg)
  /\ pageSize d = safePageSize (Num pgSize).
Proof.
  intros Hq pg pgSize key Hmiss Hf. split.
  - unfold search_route. rewrite Hq. fold pg pgSize key.
    destruct (cache_get (clock (world n)) key searchCache) as [[d0|] c'];
      [discriminate|].
    rewrite Hf. reflexivity.
  - eapply fetchFoods_reports, Hf.
Qed.

End CacheFacts.



(** ** The barcode lookup *)

Definition barcode_request (cfg : Config) (barcode baseUrl : string) : Request :=
  OffProductRequest baseUrl barcode (lc_es cfg).

Fixpoint all_chars (P : ascii -> bool) (s : string) : bool :=
  match s with
  | String c r => P c && all_chars P r
  | EmptyString => true
  end.



(** The response the loop of [findFoodByBarcode] ends on. *)
Definition barcode_response {rt : Runtime} {nw : Network} (cfg : Config)
    (barcode : string) (n : Net) : option HttpResponse :=
  fst (fst (barcode_loop cfg (baseUrls cfg) barcode None None n)).

Section BarcodeFacts.
Context {rt : Runtime} {nw : Network}.
Variable cfg : Config.

(** An attempt the loop does not stop at: a transport failure, a status
    outside 200..299, or a body without a truthy JSON value. *)
Definition failed_attempt (o : Outcome) : bool :=
  match o with
  | Failure _ => true
  | Response st tx => negb (is_2xx st) || negb (truthy (json (parsed st tx)))
  end.


(** The error the [catch] of the loop keeps for an attempt. *)
Definition attempt_error (o : Outcome) : Exn :=
  match o with
  | Failure m => TransportError m
  | Response st tx => off_error (parsed st tx)
  end.

(** [response] and [lastError] after one failed attempt. *)
Definition after_attempt (s : option HttpResponse * option Exn) (o : Outcome)
  : option HttpResponse * option Exn :=
  match o with
  | Failure m => (fst s, Some (TransportError m))
  | Response st tx => (Some (parsed st tx), Some (off_error (parsed st tx)))
  end.

Lemma barcode_loop_failed pre post barcode response lastError n outs n1 :
  replay (map (barcode_request cfg barcode) pre) n = (outs, n1) ->
  forallb failed_attempt outs = true ->
  barcode_loop cfg (pre ++ post) barcode response lastError n =
  barcode_loop cfg post barcode
    (fst (fold_left after_attempt outs (response, lastError)))
    (snd (fold_left after_attempt outs (response, lastError))) n1.
Proof.
  revert response lastError n outs.
  induction pre as [|b pre IH]; intros response lastError n outs Hr Hall.
  - simpl in Hr. injection Hr as <- <-. reflexivity.
  - simpl in Hr. cbn [app barcode_loop]. rewrite requestJson_send.
    fold (barcode_request cfg barcode b).
    destruct (send (world n) (barcode_request cfg barcode b)) as [o w].
    destruct (replay _ _) as [os n2] eqn:Hrep.
    injection Hr as <- <-.
    simpl in Hall. apply andb_prop in Hall as [Ho Hos].
    destruct o as [st tx|m].
    + rewrite not_2xx. change (status (parsed st tx)) with st.
      cbn [failed_attempt] in Ho.
      destruct (is_2xx st); cbn [negb].
      * cbn [negb orb] in Ho. rewrite Ho.
        rewrite (IH _ _ _ _ Hrep Hos). reflexivity.
      * rewrite (IH _ _ _ _ Hrep Hos). reflexivity.
    + rewrite (IH _ _ _ _ Hrep Hos). reflexivity.
Qed.




Lemma replay_length reqs n outs n1 :
  replay reqs n = (outs, n1) -> length outs = length reqs.
Proof.
  revert n outs. induction reqs as [|r rs IH]; intros n outs H; simpl in H.
  - injection H as <- <-. reflexivity.
  - destruct (send (world n) r) as [o w].
    destruct (replay rs _) as [os n2] eqn:E.
    injection H as <- <-. simpl. f_equal. eapply IH, E.
Qed.



Lemma findFoodByBarcode_ok barcode n p n' :
  findFoodByBarcode cfg barcode n = (Ok p, n') ->
  exists r,
    barcode_response cfg barcode n = Some r
    /\ truthy (json r) = true
    /\ strict_neq_num (get_opt (json r) "status") (Fin 1) = false
    /\ barcode_product barcode (json r) = Ok p.
Proof.
  unfold findFoodByBarcode, barcode_response.
  destruct (barcode_loop _ _ _ _ _ _) as [[response lastError] n1].
  cbn [fst]. unfold barcode_after.
  destruct response as [r|]; [|discriminate].
  destruct (truthy (json r)) eqn:Et; cbn [negb]; [|discriminate].
  destruct (strict_neq_num _ _) eqn:Es; [discriminate|].
  intros H. injection H as H _. exists r.
  split; [reflexivity|]. split; [exact Et|]. split; [exact Es|exact H].
Qed.

Lemma servings_of_ok per100g v svs :
  servings_of per100g v = Ok svs ->
  (truthy v = false /\ svs = [serving_100g per100g])
  \/ (exists s, v = Str s /\ is_empty s = false
                /\ svs = [serving_100g per100g; serving_scaled per100g s]).
Proof.
  unfold servings_of. destruct (truthy v) eqn:Et.
  - destruct v; try discriminate. intros H. injection H as <-.
    right. exists s. simpl in Et. apply negb_true_iff in Et. auto.
  - intros H. injection H as <-. left. auto.
Qed.

Lemma barcode_product_ok barcode js p :
  barcode_product barcode js = Ok p ->
  let product := get_opt js "product" in
  let nutriments := or_else (get_opt product "nutriments") (Obj []) in
  servings_of (per100g_of nutriments) (get_opt product "serving_size")
  = Ok (servings p).
Proof.
  intros H product nutriments. unfold barcode_product in H.
  fold product in H.
  destruct (get product "nutriments") as [n0|e] eqn:En; [|discriminate].
  assert (Hn0 : n0 = get_opt product "nutriments").
  { destruct product; simpl in En; try discriminate; injection En as <-; reflexivity. }
  subst n0. cbn [mbind result_bind] in H. fold nutriments in H.
  destruct (servings_of _ _) as [svs|e]; [|discriminate].
  cbn in H. injection H as <-. reflexivity.
Qed.






(** C10 (amended).  The servings of a successful barcode lookup are one or
    two; the first is the synthesized serving with description ["100g"],
    amount 100 and unit ["g"]; there is a second one exactly when the
    [serving_size] of the source product is a non-empty string. *)
Theorem findFoodByBarcode_servings_shape barcode n p n' :
  findFoodByBarcode cfg barcode n = (Ok p, n') ->
  exists r,
    barcode_response cfg barcode n = Some r
    /\ (1 <= length (servings p) <= 2)%nat
    /\ (exists first rest,
          servings p = first :: rest
          /\ serving_description first = Str "100g"
          /\ metric_serving_amount first = Fin 100
          /\ metric_serving_unit first = "g")
    /\ (length (servings p) = 2%nat <->
        exists s, get_opt (get_opt (json r) "product") "serving_size" = Str s
                  /\ is_empty s = false).
Proof.
  intros H.
  destruct (findFoodByBarcode_ok _ _ _ _ H) as (r & Hr & _ & _ & Hp).
  exists r. split; [exact Hr|].
  pose proof (barcode_product_ok _ _ _ Hp) as Hsv. cbv zeta in Hsv.
  apply servings_of_ok in Hsv as [[Hf ->]|(s & Hs & Hne & ->)].
  - split; [simpl; lia|]. split.
    + eexists _, _. repeat split.
    + split; [discriminate|].
      intros (s & Hs & Hne). rewrite Hs in Hf. simpl in Hf.
      rewrite Hne in Hf. discriminate.
  - split; [simpl; lia|]. split.
    + eexists _, _. repeat split.
    + split; [|reflexivity]. intros _. exists s. auto.
Qed.

End BarcodeFacts.



(** The [response] assigned before the checks survives a failed attempt:
    two answers with status 500 and the JSON body of an absent product
    pass the test after the loop and are surfaced as 404. *)
Lemma barcode_route_non_2xx_json :
  fst (barcode_route sample_cfg (Some "84")
         (script [Response 500 text_status0; Response 500 text_status0] 0))
  = {| code := 404; body := error_body (not_found "84") |}.
Proof. reflexivity. Qed.



(** The same lookup has two servings. *)
Lemma findFoodByBarcode_servings_shape_witness :
  match findFoodByBarcode sample_cfg "84" (script [Response 200 text_product_250g] 0) with
  | (Ok p, _) => (1 <= length (servings p) <= 2)%nat
  | (Throw _, _) => False
  end.
Proof.
  destruct (findFoodByBarcode sample_cfg "84" (script [Response 200 text_product_250g] 0))
    as [[p|e] n'] eqn:E.
  - destruct (findFoodByBarcode_servings_shape sample_cfg _ _ _ _ E) as (r & _ & Hlen & _).
    exact Hlen.
  - vm_compute in E. discriminate E.
Defined.

(** C10 as stated fails: a product whose [serving_size] is the empty
    string carries a serving-size string and has one serving only. *)
Lemma findFoodByBarcode_blank_serving_counterexample :
  exists p n',
    findFoodByBarcode sample_cfg "84" (script [Response 200 text_product_blank] 0)
    = (Ok p, n')
    /\ get_opt (get_opt (json (parsed 200 text_product_blank)) "product") "serving_size"
       = Str ""
    /\ length (servings p) = 1%nat.
Proof. eexists _, _. repeat split. Qed.

(** ** JSON extraction *)

(** [d] inside a Markdown code fence: three backticks, the language tag,
    a line break, [d], a line break, three backticks. *)
Definition fenced (tag d : string) : string :=
  fence +:+ tag +:+ String newline (d +:+ String newline fence).

Definition not_open_brace (c : ascii) : bool := negb (Ascii.eqb c open_brace).

(** [{], [body], [}]. *)
Definition braced (body : string) : string :=
  String open_brace (body +:+ String close_brace "").

Lemma append_assoc (a b c : string) : (a +:+ b) +:+ c = a +:+ (b +:+ c).
Proof.
  induction a as [|x a IH]; [reflexivity|].
  change (String x ((a +:+ b) +:+ c) = String x (a +:+ (b +:+ c))).
  f_equal. exact IH.
Qed.

Lemma is_empty_append s t : is_empty t = false -> is_empty (s +:+ t) = false.
Proof. destruct s; auto. Qed.

Lemma trimEnd_cons_keep a w :
  trimEnd w = w -> is_empty w = false -> trimEnd (String a w) = String a w.
Proof. intros Hw Hne. simpl. rewrite Hw, Hne. reflexivity. Qed.

Lemma trimEnd_app_keep s t :
  trimEnd t = t -> is_empty t = false -> trimEnd (s +:+ t) = s +:+ t.
Proof.
  intros Ht Hne. induction s as [|a s IH]; [exact Ht|].
  simpl String.append. apply trimEnd_cons_keep; [exact IH|].
  apply is_empty_append, Hne.
Qed.

Lemma trimEnd_space s c :
  is_space c = true -> trimEnd (s +:+ String c "") = trimEnd s.
Proof.
  intros Hc. induction s as [|a s IH]; simpl.
  - rewrite Hc. reflexivity.
  - rewrite IH. reflexivity.
Qed.

Lemma trim_space s c : is_space c = true -> trim (s +:+ String c "") = trim s.
Proof.
  intros Hc. unfold trim. induction s as [|a s IH].
  - simpl. rewrite Hc. reflexivity.
  - change (String a s +:+ String c "") with (String a (s +:+ String c "")).
    cbn [trimStart]. destruct (is_space a); [exact IH|].
    apply (trimEnd_space (String a s) c Hc).
Qed.

Lemma trim_fenced tag d : trim (fenced tag d) = fenced tag d.
Proof.
  unfold trim, fenced. change (trimStart (fence +:+ ?x)) with (fence +:+ x).
  apply trimEnd_app_keep; [|apply is_empty_append; reflexivity].
  apply trimEnd_app_keep; [|reflexivity].
  apply trimEnd_cons_keep; [|apply is_empty_append; reflexivity].
  apply trimEnd_app_keep; reflexivity.
Qed.

Lemma drop_letters_tag tag rest :
  all_chars is_letter tag = true ->
  drop_letters (tag +:+ String newline rest) = String newline rest.
Proof.
  intros Ht. induction tag as [|c tag IH]; [reflexivity|].
  simpl in Ht. apply andb_prop in Ht as [Hc Ht].
  simpl. rewrite Hc. apply IH, Ht.
Qed.

Lemma startsWith_fence x : startsWith fence (fence +:+ x) = true.
Proof. destruct x; reflexivity. Qed.

Lemma drop_fence x : drop 3 (fence +:+ x) = x.
Proof. reflexivity. Qed.

Lemma strip_fence_open_fenced tag d :
  all_chars is_letter tag = true ->
  strip_fence_open (fenced tag d) = d +:+ String newline fence.
Proof.
  intros Ht. unfold strip_fence_open, fenced.
  rewrite startsWith_fence, drop_fence.
  rewrite (drop_letters_tag _ _ Ht). reflexivity.
Qed.

Lemma eqb_longer c s : String.eqb (String c (s +:+ fence)) fence = false.
Proof.
  apply String.eqb_neq. intros H.
  apply (f_equal String.length) in H. simpl in H.
  assert (Hl : forall a b, String.length (a +:+ b) = (String.length a + String.length b)%nat).
  { intros a b. induction a as [|x a IH]; simpl; [reflexivity|]. rewrite IH. reflexivity. }
  rewrite Hl in H. simpl in H. lia.
Qed.

Lemma strip_fence_close_eq s :
  strip_fence_close s =
  if String.eqb s fence then EmptyString
  else match s with
       | String c r => String c (strip_fence_close r)
       | EmptyString => EmptyString
       end.
Proof. destruct s; reflexivity. Qed.

Lemma strip_fence_close_app s : strip_fence_close (s +:+ fence) = s.
Proof.
  induction s as [|c s IH]; [reflexivity|].
  change (String c s +:+ fence) with (String c (s +:+ fence)).
  rewrite strip_fence_close_eq, eqb_longer, IH. reflexivity.
Qed.

Lemma startsWith_fenced tag d : startsWith fence (fenced tag d) = true.
Proof. unfold fenced. apply startsWith_fence. Qed.

(** The fence is removed before the first parse. *)
Lemma cleaned_fenced tag d :
  all_chars is_letter tag = true ->
  startsWith fence (trim d) = false ->
  cleaned (fenced tag d) = cleaned d.
Proof.
  intros Ht Hd. unfold cleaned.
  rewrite trim_fenced, Hd, startsWith_fenced.
  rewrite (strip_fence_open_fenced _ _ Ht).
  change (d +:+ String newline fence) with (d +:+ (String newline "" +:+ fence)).
  rewrite <- append_assoc, strip_fence_close_app.
  rewrite (trim_space d newline eq_refl). reflexivity.
Qed.

Lemma from_first_skip c pre s :
  all_chars (fun a => negb (Ascii.eqb a c)) pre = true ->
  from_first c (pre +:+ s) = from_first c s.
Proof.
  intros Hp. induction pre as [|a pre IH]; [reflexivity|].
  simpl in Hp. apply andb_prop in Hp as [Ha Hp]. apply negb_true_iff in Ha.
  simpl. rewrite Ha. apply IH, Hp.
Qed.

Lemma from_first_none c s :
  all_chars (fun a => negb (Ascii.eqb a c)) s = true -> from_first c s = None.
Proof.
  intros Hs. induction s as [|a s IH]; [reflexivity|].
  simpl in Hs. apply andb_prop in Hs as [Ha Hs]. apply negb_true_iff in Ha.
  simpl. rewrite Ha. apply IH, Hs.
Qed.

Lemma from_first_app c s t :
  all_chars (fun a => negb (Ascii.eqb a c)) t = true ->
  from_first c (s +:+ t)
  = match from_first c s with
    | Some r => Some (r +:+ t)
    | None => None
    end.
Proof.
  intros Ht. induction s as [|a s IH]; simpl.
  - apply from_first_none, Ht.
  - destruct (Ascii.eqb a c); [reflexivity|exact IH].
Qed.

Lemma upto_last_none c s :
  all_chars (fun a => negb (Ascii.eqb a c)) s = true -> upto_last c s = None.
Proof.
  intros Hs. induction s as [|a s IH]; [reflexivity|].
  simpl in Hs. apply andb_prop in Hs as [Ha Hs]. apply negb_true_iff in Ha.
  simpl. rewrite (IH Hs), Ha. reflexivity.
Qed.

Lemma upto_last_app c s t :
  all_chars (fun a => negb (Ascii.eqb a c)) t = true ->
  upto_last c (s +:+ t) = upto_last c s.
Proof.
  intros Ht. induction s as [|a s IH]; simpl.
  - apply upto_last_none, Ht.
  - rewrite IH. reflexivity.
Qed.

Lemma upto_last_end c s :
  upto_last c (s +:+ String c "") = Some (s +:+ String c "").
Proof.
  induction s as [|a s IH]; simpl.
  - rewrite Ascii.eqb_refl. reflexivity.
  - rewrite IH. reflexivity.
Qed.

Lemma all_chars_weaken (P Q : ascii -> bool) s :
  (forall a, P a = true -> Q a = true) ->
  all_chars P s = true -> all_chars Q s = true.
Proof.
  intros HPQ. induction s as [|a s IH]; [reflexivity|].
  simpl. intros H. apply andb_prop in H as [Ha Hs].
  rewrite (HPQ _ Ha), (IH Hs). reflexivity.
Qed.

Lemma letter_not_brace a :
  is_letter a = true -> negb (Ascii.eqb a open_brace) = true.
Proof.
  intros Ha. apply negb_true_iff. destruct (Ascii.eqb_spec a open_brace) as [->|];
    [discriminate|reflexivity].
Qed.

(** A fence adds no brace: the fallback match sees the same substring. *)
Lemma match_braces_fenced tag d :
  all_chars is_letter tag = true ->
  match_braces (fenced tag d) = match_braces d.
Proof.
  intros Ht. unfold match_braces, fenced.
  change (from_first open_brace (fence +:+ ?x)) with (from_first open_brace x).
  rewrite (from_first_skip open_brace tag).
  2:{ eapply all_chars_weaken; [|exact Ht]. apply letter_not_brace. }
  change (from_first open_brace (String newline ?x)) with (from_first open_brace x).
  rewrite (from_first_app open_brace d (String newline fence) eq_refl).
  destruct (from_first open_brace d) as [[|b r]|]; [reflexivity| |reflexivity].
  change (String b r +:+ String newline fence)
    with (String b (r +:+ String newline fence)).
  cbv iota.
  rewrite (upto_last_app close_brace r (String newline fence) eq_refl).
  reflexivity.
Qed.

Lemma match_braces_prose prose body :
  all_chars not_open_brace prose = true ->
  match_braces (prose +:+ braced body) = Some (braced body).
Proof.
  intros Hp. unfold match_braces.
  rewrite (from_first_skip open_brace prose _ Hp).
  unfold braced. cbn [from_first]. rewrite Ascii.eqb_refl.
  rewrite upto_last_end. reflexivity.
Qed.

Section ExtractionFacts.
Context {rt : Runtime}.

(** C7 (amended).  (1) A non-empty text [d] that does not itself start
    with a fence, once wrapped in a triple-backtick fence with or without
    a language tag of letters, is extracted exactly as [d] is.  (2) For a
    text made of prose without an opening brace followed by a block from
    [{] to [}], when the cleaned text as a whole is not JSON the routine
    returns the parse of the block, or [null] when the block is not
    JSON.  (3) When neither the cleaned text nor the substring from the
    first [{] to the last [}] parses, the routine returns [null]. *)
Theorem parseGeminiJson_extraction :
  (forall tag d,
     all_chars is_letter tag = true ->
     is_empty d = false ->
     startsWith fence (trim d) = false ->
     parseGeminiJson (Str (fenced tag d)) = parseGeminiJson (Str d))
  /\ (forall prose body,
        all_chars not_open_brace prose = true ->
        JSON_parse (cleaned (prose +:+ braced body)) = None ->
        parseGeminiJson (Str (prose +:+ braced body))
        = match JSON_parse (braced body) with
          | Some v => v
          | None => Null
          end)
  /\ (forall text,
        JSON_parse (cleaned text) = None ->
        (forall m, match_braces text = Some m -> JSON_parse m = None) ->
        parseGeminiJson (Str text) = Null).
Proof.
  split.
  { intros tag d Ht Hne Hd. unfold parseGeminiJson.
    cbn [truthy ToString]. rewrite Hne. cbn [negb].
    change (is_empty (fenced tag d)) with false. cbn [negb].
    rewrite (cleaned_fenced _ _ Ht Hd), (match_braces_fenced _ _ Ht).
    reflexivity. }
  split.
  { intros prose body Hp Hc. unfold parseGeminiJson.
    cbn [truthy ToString].
    rewrite (is_empty_append prose (braced body) eq_refl). cbn [negb].
    rewrite Hc, (match_braces_prose _ _ Hp). reflexivity. }
  intros text Hc Hm. unfold parseGeminiJson.
  cbn [truthy ToString]. destruct (is_empty text); [reflexivity|]. cbn [negb].
  rewrite Hc.
  destruct (match_braces text) as [m|] eqn:Em; [|reflexivity].
  rewrite (Hm m eq_refl). reflexivity.
Qed.

End ExtractionFacts.

(** A fenced object with the tag "json", and an object after a sentence. *)
Lemma parseGeminiJson_extraction_witness :
  parseGeminiJson (Str (fenced "json" text_a1)) = Obj [("a", Num (Fin 1))]
  /\ parseGeminiJson (Str ("Aqui tienes: " +:+ text_a1)) = Obj [("a", Num (Fin 1))]
  /\ parseGeminiJson (Str "no lo se") = Null.
Proof.
  pose proof (@parseGeminiJson_extraction sample_runtime) as (Hfence & Hprose & Hnull).
  split.
  - rewrite (Hfence "json" text_a1 eq_refl eq_refl eq_refl). reflexivity.
  - split.
    + exact (Hprose "Aqui tienes: " (quoted "a" +:+ ":1") eq_refl eq_refl).
    + apply Hnull; [reflexivity|]. intros m Hm. vm_compute in Hm. discriminate Hm.
Defined.

(** C7 as stated fails: prose that itself contains an opening brace makes
    the match start there, and the object that follows is not
    extracted. *)
Lemma parseGeminiJson_greedy_counterexample :
  parseGeminiJson (Str ("Usa {x}: " +:+ text_a1)) = Null
  /\ JSON_parse text_a1 = Some (Obj [("a", Num (Fin 1))])
  /\ match_braces ("Usa {x}: " +:+ text_a1) = Some ("{x}: " +:+ text_a1).
Proof. repeat split. Qed.

(** * The rest of [server.js] *)

(** ** Start-up: the [.env] file and the configuration *)

(** [s.split(sep)] for a one-character separator: never empty, one piece
    more than there are separators. *)
Fixpoint split (sep : ascii) (s : string) : list string :=
  match s with
  | EmptyString => [EmptyString]
  | String a r =>
      if Ascii.eqb a sep then EmptyString :: split sep r
      else match split sep r with
           | piece :: pieces => String a piece :: pieces
           | [] => [String a EmptyString]
           end
  end.

(** [index = s.indexOf(c)] with [s.slice(0, index)] and
    [s.slice(index + 1)]; [None] when [index === -1]. *)
Fixpoint cut_at (c : ascii) (s : string) : option (string * string) :=
  match s with
  | EmptyString => None
  | String a r =>
      if Ascii.eqb a c then Some (EmptyString, r)
      else match cut_at c r with
           | Some (before, after) => Some (String a before, after)
           | None => None
           end
  end.

Definition equals_sign : ascii := ascii_of_N 61.
Definition comma : ascii := ascii_of_N 44.

(** [!process.env[key]]: the variable is unset or empty.  [process.env] is
    taken as a map from names to strings. *)
Definition unset (env : gmap string string) (key : string) : bool :=
  match env !! key with
  | Some v => is_empty v
  | None => true
  end.

(** What a line of the file defines: the key and the value around its
    first equals sign, when it is neither blank nor a comment. *)
Definition definition_of (line : string) : option (string * string) :=
  let trimmed := trim line in
  if is_empty trimmed || startsWith "#" trimmed then None
  else match cut_at equals_sign trimmed with
       | Some (before, after) => Some (trim before, trim after)
       | None => None
       end.

(** The callback of [forEach] in [loadEnv]. *)
Definition env_line (env : gmap string string) (line : string) : gmap string string :=
  match definition_of line with
  | Some (key, value) => if unset env key then <[key := value]> env else env
  | None => env
  end.

(** [loadEnv]; [file] is the content of [.env], [None] when the file does
    not exist. *)
Definition loadEnv (file : option string) (env : gmap string string)
  : gmap string string :=
  match file with
  | None => env
  | Some content => fold_left env_line (split newline content) env
  end.

(** [process.env[key] || dflt] *)
Definition env_or (env : gmap string string) (key dflt : string) : string :=
  match env !! key with
  | Some v => if is_empty v then dflt else v
  | None => dflt
  end.

(** [s.split(",").map((m) => m.trim()).filter(Boolean)] *)
Definition parse_list (s : string) : list string :=
  List.filter (fun m => negb (is_empty m)) (map trim (split comma s)).

Definition es_url : string := "https://es.openfoodfacts.org".

Definition default_models : string :=
  "gemini-2.5-flash-lite,gemini-1.5-flash-latest,gemini-1.5-pro-latest,gemini-1.0-pro-vision".

(** The constants computed after [loadEnv()]; [None] is the
    [process.exit(1)] for missing credentials. *)
Definition config_of (env : gmap string string) : option Config :=
  if unset env "FATSECRET_CLIENT_ID" || unset env "FATSECRET_CLIENT_SECRET" then None
  else
    let region := env_or env "FATSECRET_REGION" "ES" in
    Some {| CLIENT_ID := env_or env "FATSECRET_CLIENT_ID" "";
            CLIENT_SECRET := env_or env "FATSECRET_CLIENT_SECRET" "";
            REGION := region;
            OFF_BASE_URL :=
              env_or env "OFF_BASE_URL"
                (if String.eqb region "ES" then es_url else world_url);
            OFF_STRICT_COUNTRY :=
              match env !! "OFF_STRICT_COUNTRY" with
              | Some v => String.eqb v "1"
              | None => false
              end;
            GEMINI_API_KEY :=
              match env !! "GEMINI_API_KEY" with
              | Some v => Str v
              | None => Undefined
              end;
            GEMINI_MODELS := parse_list (env_or env "GEMINI_MODELS" default_models);
            GEMINI_API_VERSIONS := parse_list (env_or env "GEMINI_API_VERSIONS" "v1,v1beta") |}.

(** The server as started: [loadEnv()], then the constants. *)
Definition startup (file : option string) (env : gmap string string) : option Config :=
  config_of (loadEnv file env).

Lemma env_line_keeps (env : gmap string string) line k v :
  env !! k = Some v -> is_empty v = false -> env_line env line !! k = Some v.
Proof.
  intros Hk Hv. unfold env_line.
  destruct (definition_of line) as [[key value]|]; [|exact Hk].
  destruct (unset env key) eqn:Hu; [|exact Hk].
  destruct (decide (key = k)) as [->|Hne].
  - unfold unset in Hu. rewrite Hk in Hu. congruence.
  - rewrite lookup_insert_ne by exact Hne. exact Hk.
Qed.

Lemma fold_env_line_keeps lines (env : gmap string string) k v :
  env !! k = Some v -> is_empty v = false ->
  fold_left env_line lines env !! k = Some v.
Proof.
  revert env. induction lines as [|l ls IH]; intros env Hk Hv; [exact Hk|].
  simpl. apply IH; [|exact Hv]. apply env_line_keeps; assumption.
Qed.

Lemma loadEnv_lookup_kept file (env : gmap string string) k v :
  env !! k = Some v -> is_empty v = false -> loadEnv file env !! k = Some v.
Proof.
  intros Hk Hv. destruct file as [content|]; [|exact Hk].
  apply fold_env_line_keeps; assumption.
Qed.

Lemma env_line_defined (env : gmap string string) line k :
  is_Some (env !! k) -> is_Some (env_line env line !! k).
Proof.
  intros Hk. unfold env_line.
  destruct (definition_of line) as [[key value]|]; [|exact Hk].
  destruct (unset env key); [|exact Hk].
  destruct (decide (key = k)) as [->|Hne].
  - rewrite lookup_insert_eq. eauto.
  - rewrite lookup_insert_ne by exact Hne. exact Hk.
Qed.

(** A variable that is set and not empty when the server starts keeps its
    value, whatever the [.env] file says; no variable is ever removed;
    without a file the environment is unchanged. *)
Theorem loadEnv_keeps_existing file (env : gmap string string) :
  (forall k v, env !! k = Some v -> is_empty v = false -> loadEnv file env !! k = Some v)
  /\ (forall k, is_Some (env !! k) -> is_Some (loadEnv file env !! k))
  /\ (file = None -> loadEnv file env = env).
Proof.
  split; [intros k v; apply loadEnv_lookup_kept|]. split.
  - intros k Hk. destruct file as [content|]; [|exact Hk].
    unfold loadEnv. revert env Hk.
    induction (split newline content) as [|l ls IH]; intros env Hk; [exact Hk|].
    simpl. apply IH, env_line_defined, Hk.
  - intros ->. reflexivity.
Qed.







Lemma loadEnv_keeps_existing_witness :
  loadEnv (Some "PORT=9000") {["PORT" := "8787"]} !! "PORT" = Some "8787".
Proof.
  apply (proj1 (loadEnv_keeps_existing (Some "PORT=9000") {["PORT" := "8787"]}));
    [apply lookup_singleton_eq|reflexivity].
Defined.

Definition starts_clean (s : string) : bool :=
  match s with
  | String c _ => negb (is_space c)
  | EmptyString => true
  end.

(** An entry as [parse_list] leaves it: not empty, no space at either end. *)
Definition clean_entry (m : string) : Prop := is_empty m = false /\ trim m = m.

Lemma trimEnd_idem s : trimEnd (trimEnd s) = trimEnd s.
Proof.
  induction s as [|a s IH]; [reflexivity|]. simpl.
  destruct (is_empty (trimEnd s) && is_space a) eqn:E; [reflexivity|].
  simpl. rewrite IH, E. reflexivity.
Qed.

Lemma trimStart_clean s : starts_clean (trimStart s) = true.
Proof.
  induction s as [|a s IH]; [reflexivity|]. simpl.
  destruct (is_space a) eqn:E; [exact IH|]. simpl. rewrite E. reflexivity.
Qed.

Lemma trimEnd_clean s : starts_clean s = true -> starts_clean (trimEnd s) = true.
Proof.
  destruct s as [|a s]; [reflexivity|]. simpl. intros H.
  destruct (is_empty (trimEnd s) && is_space a); [reflexivity|exact H].
Qed.

Lemma trimStart_of_clean s : starts_clean s = true -> trimStart s = s.
Proof.
  destruct s as [|a s]; [reflexivity|]. simpl.
  destruct (is_space a); [discriminate|reflexivity].
Qed.

Lemma trim_idem s : trim (trim s) = trim s.
Proof.
  unfold trim.
  rewrite (trimStart_of_clean (trimEnd (trimStart s))).
  - apply trimEnd_idem.
  - apply trimEnd_clean, trimStart_clean.
Qed.

(** Whatever the text of the variable, the list read from it has no empty
    entry and no entry with a space at either end. *)
Lemma parse_list_clean s : Forall clean_entry (parse_list s).
Proof.
  unfold parse_list. apply List.Forall_forall. intros m Hm.
  apply filter_In in Hm as [Hin Hne].
  apply in_map_iff in Hin as (raw & <- & _).
  split; [apply negb_true_iff, Hne|apply trim_idem].
Qed.

Lemma candidate_pairs_no_versions models : candidate_pairs models [] = [].
Proof. induction models as [|m ms IH]; [reflexivity|exact IH]. Qed.

Section StartupFacts.
Context {rt : Runtime} {nw : Network}.

(** The base URLs tried by the two Open Food Facts gateways start with the
    configured one, end with the world database and never repeat: one
    attempt when the configured URL is the world database, two
    otherwise. *)
Theorem baseUrls_shape (cfg : Config) :
  head (baseUrls cfg) = Some (OFF_BASE_URL cfg)
  /\ last (baseUrls cfg) = Some world_url
  /\ NoDup (baseUrls cfg)
  /\ (length (baseUrls cfg) = 1%nat <-> OFF_BASE_URL cfg = world_url).
Proof.
  unfold baseUrls.
  destruct (String.eqb_spec (OFF_BASE_URL cfg) world_url) as [E|E].
  - rewrite E. repeat split; try reflexivity.
    apply NoDup_singleton.
  - split; [reflexivity|]. split; [reflexivity|]. split.
    + apply NoDup_cons_2; [|apply NoDup_singleton].
      intros Hin. apply list_elem_of_singleton in Hin. contradiction.
    + split; [discriminate|intros H; contradiction].
Qed.

(** With no model or no API version configured [callGemini] fails at once
    with the default message and sends nothing. *)
Theorem callGemini_nothing_configured (cfg : Config) payload n :
  GEMINI_MODELS cfg = [] \/ GEMINI_API_VERSIONS cfg = [] ->
  callGemini cfg payload n = (Throw (GenerationError "Gemini error"), n).
Proof.
  intros H. rewrite callGemini_scan.
  assert (Hp : candidate_pairs (GEMINI_MODELS cfg) (GEMINI_API_VERSIONS cfg) = []).
  { destruct H as [-> | ->]; [reflexivity|apply candidate_pairs_no_versions]. }
  rewrite Hp. reflexivity.
Qed.

End StartupFacts.

(** What [startup] guarantees about the configuration it returns:
    credentials that are not empty, lists without empty or padded
    entries, a region and a base URL that are not empty. *)
Theorem config_of_wellformed (env : gmap string string) cfg :
  config_of env = Some cfg ->
  is_empty (CLIENT_ID cfg) = false
  /\ is_empty (CLIENT_SECRET cfg) = false
  /\ is_empty (REGION cfg) = false
  /\ is_empty (OFF_BASE_URL cfg) = false
  /\ Forall clean_entry (GEMINI_MODELS cfg)
  /\ Forall clean_entry (GEMINI_API_VERSIONS cfg).
Proof.
  unfold config_of.
  destruct (unset env "FATSECRET_CLIENT_ID") eqn:Hid; [discriminate|].
  destruct (unset env "FATSECRET_CLIENT_SECRET") eqn:Hsec; [discriminate|].
  cbn [orb]. intros H. injection H as <-.
  cbn [CLIENT_ID CLIENT_SECRET REGION OFF_BASE_URL GEMINI_MODELS GEMINI_API_VERSIONS].
  assert (Hor : forall k d, is_empty d = false -> is_empty (env_or env k d) = false).
  { intros k d Hd. unfold env_or. destruct (env !! k) as [v|]; [|exact Hd].
    destruct (is_empty v) eqn:E; [exact Hd|exact E]. }
  assert (Hset : forall k, unset env k = false -> is_empty (env_or env k "") = false).
  { intros k. unfold unset, env_or. destruct (env !! k) as [v|]; [|discriminate].
    intros E. rewrite E. exact E. }
  split; [apply Hset, Hid|]. split; [apply Hset, Hsec|].
  split; [apply Hor; reflexivity|].
  split.
  { apply Hor. destruct (String.eqb _ "ES"); reflexivity. }
  split; apply parse_list_clean.
Qed.

(** The environment of the process takes precedence over the file: a
    region or a base URL set (and not empty) when the server starts is the
    one of the configuration. *)
Theorem startup_env_precedence file (env : gmap string string) cfg :
  startup file env = Some cfg ->
  (forall v, env !! "FATSECRET_REGION" = Some v -> is_empty v = false -> REGION cfg = v)
  /\ (forall v, env !! "OFF_BASE_URL" = Some v -> is_empty v = false -> OFF_BASE_URL cfg = v).
Proof.
  unfold startup, config_of.
  destruct (unset _ "FATSECRET_CLIENT_ID" || unset _ "FATSECRET_CLIENT_SECRET");
    [discriminate|].
  intros H. injection H as <-. cbn [REGION OFF_BASE_URL]. split.
  - intros v Hk Hv. unfold env_or at 1.
    rewrite (loadEnv_lookup_kept file env _ _ Hk Hv), Hv. reflexivity.
  - intros v Hk Hv. unfold env_or at 1.
    rewrite (loadEnv_lookup_kept file env _ _ Hk Hv), Hv. reflexivity.
Qed.

(** Without a region and without a base URL the Spanish database is asked
    first and the world database second; with another region and no base
    URL only the world database is asked. *)
Theorem config_of_default_urls (env : gmap string string) cfg :
  config_of env = Some cfg ->
  unset env "OFF_BASE_URL" = true ->
  (unset env "FATSECRET_REGION" = true ->
   REGION cfg = "ES" /\ baseUrls cfg = [es_url; world_url])
  /\ (forall v, env !! "FATSECRET_REGION" = Some v -> is_empty v = false -> v <> "ES" ->
      baseUrls cfg = [world_url]).
Proof.
  unfold config_of.
  destruct (unset env "FATSECRET_CLIENT_ID" || unset env "FATSECRET_CLIENT_SECRET");
    [discriminate|].
  intros H Hbase. injection H as <-.
  assert (Hb : forall d, env_or env "OFF_BASE_URL" d = d).
  { intros d. unfold unset in Hbase. unfold env_or.
    destruct (env !! "OFF_BASE_URL") as [v|]; [|reflexivity]. rewrite Hbase. reflexivity. }
  split.
  - intros Hr.
    assert (Hreg : env_or env "FATSECRET_REGION" "ES" = "ES").
    { unfold unset in Hr. unfold env_or.
      destruct (env !! "FATSECRET_REGION") as [v|]; [|reflexivity]. rewrite Hr. reflexivity. }
    unfold baseUrls. cbn [REGION OFF_BASE_URL]. rewrite Hb, Hreg. split; reflexivity.
  - intros v Hk Hv Hne.
    assert (Hreg : env_or env "FATSECRET_REGION" "ES" = v).
    { unfold env_or. rewrite Hk, Hv. reflexivity. }
    unfold baseUrls. cbn [OFF_BASE_URL]. rewrite Hb, Hreg.
    apply String.eqb_neq in Hne. rewrite Hne. reflexivity.
Qed.

Definition sample_env : gmap string string :=
  {["FATSECRET_CLIENT_ID" := "id"]} ∪ {["FATSECRET_CLIENT_SECRET" := "secret"]}
  ∪ {["GEMINI_MODELS" := " , ,"]} ∪ {["FATSECRET_REGION" := "FR"]}.

Lemma config_of_wellformed_witness :
  match config_of sample_env with
  | Some cfg => is_empty (CLIENT_ID cfg) = false /\ GEMINI_MODELS cfg = []
  | None => False
  end.
Proof.
  destruct (config_of sample_env) as [cfg|] eqn:E.
  - split; [exact (proj1 (config_of_wellformed sample_env cfg E))|].
    vm_compute in E. injection E as <-. reflexivity.
  - vm_compute in E. discriminate E.
Defined.

Lemma startup_env_precedence_witness :
  match startup (Some "FATSECRET_REGION=ES") sample_env with
  | Some cfg => REGION cfg = "FR"
  | None => False
  end.
Proof.
  destruct (startup (Some "FATSECRET_REGION=ES") sample_env) as [cfg|] eqn:E.
  - apply (proj1 (startup_env_precedence _ _ _ E)); reflexivity.
  - vm_compute in E. discriminate E.
Defined.

Lemma config_of_default_urls_witness :
  match config_of sample_env with
  | Some cfg => baseUrls cfg = [world_url]
  | None => False
  end.
Proof.
  destruct (config_of sample_env) as [cfg|] eqn:E.
  - apply (proj2 (config_of_default_urls sample_env cfg E eq_refl) "FR");
      [reflexivity|reflexivity|discriminate].
  - vm_compute in E. discriminate E.
Defined.

(** A variable made of commas and spaces configures no model: the first
    call fails without a request. *)
Lemma callGemini_nothing_configured_witness :
  match config_of sample_env with
  | Some cfg =>
      callGemini cfg Null (script [Response 200 text_answer] 0)
      = (Throw (GenerationError "Gemini error"), script [Response 200 text_answer] 0)
  | None => False
  end.
Proof.
  destruct (config_of sample_env) as [cfg|] eqn:E.
  - apply callGemini_nothing_configured. left.
    vm_compute in E. injection E as <-. reflexivity.
  - vm_compute in E. discriminate E.
Defined.

(** ** The token cache across calls *)

Section TokenReuse.
Context {rt : Runtime} {nw : Network}.
Variable cfg : Config.

(** [now + expires_in * 1000 - 10_000] for an integer [expires_in]. *)
Lemma expiry_margin t e :
  exists q,
    num_sub (num_add (num_of_Z t) (num_mul (num_of_Z e) (num_of_Z 1000))) (num_of_Z 10000)
    = Fin q
    /\ (q == inject_Z (t + 1000 * e - 10000))%Q.
Proof.
  unfold num_sub, num_of_Z, num_mul. cbn [fin_value sign_neg num_neg].
  change (Qeq_bool (inject_Z 10000) 0) with false. cbv iota.
  destruct (Qeq_bool (inject_Z e * inject_Z 1000) 0) eqn:E.
  - apply Qeq_bool_iff in E.
    assert (e = 0) by (unfold Qeq, inject_Z in E; simpl in E; lia). subst e.
    eexists. split; [reflexivity|].
    unfold Qeq, inject_Z. simpl. lia.
  - eexists. split; [reflexivity|].
    cbn [fin_value]. unfold Qeq, inject_Z, Qplus, Qmult, Qopp. simpl. lia.
Qed.

Lemma stale_sends tokenCache n :
  truthy (token tokenCache)
  && num_lt (num_of_Z (clock (world n)))
       (num_sub (expiresAt tokenCache) (num_of_Z 10000)) = false ->
  sent (snd (getAccessToken cfg tokenCache n)) = sent n ++ [exchange_of cfg].
Proof.
  intros Hs. rewrite (getAccessToken_exchange _ _ _ Hs).
  destruct (send (world n) (exchange_of cfg)) as [[st tx|m] w]; [|reflexivity].
  destruct (is_2xx st); [|reflexivity].
  destruct (get _ _); reflexivity.
Qed.

(** The cache after an exchange answered with a 2xx body [data]. *)
Lemma exchanged_cache tokenCache n st tx w data :
  truthy (token tokenCache)
  && num_lt (num_of_Z (clock (world n)))
       (num_sub (expiresAt tokenCache) (num_of_Z 10000)) = false ->
  send (world n) (exchange_of cfg) = (Response st tx, w) ->
  is_2xx st = true ->
  JSON_parse tx = Some data ->
  nullish data = false ->
  snd (fst (getAccessToken cfg tokenCache n))
  = {| token := get_opt data "access_token";
       expiresAt := num_add (num_of_Z (clock (world n)))
                      (num_mul (ToNumber (get_opt data "expires_in")) (num_of_Z 1000)) |}.
Proof.
  intros Hs Hsend H2 Hp Hn.
  rewrite (getAccessToken_exchange _ _ _ Hs), Hsend, H2.
  unfold parsed. cbn [json]. rewrite Hp.
  destruct data; try discriminate; reflexivity.
Qed.

(** A token obtained with an integer [expires_in] of [e] seconds at clock
    [t] is served again, without a request, by every later call made
    before [t + 1000 e - 10000]. *)
Theorem getAccessToken_reuses_exchanged tokenCache n st tx w data e n2 :
  truthy (token tokenCache)
  && num_lt (num_of_Z (clock (world n)))
       (num_sub (expiresAt tokenCache) (num_of_Z 10000)) = false ->
  send (world n) (exchange_of cfg) = (Response st tx, w) ->
  is_2xx st = true ->
  JSON_parse tx = Some data ->
  nullish data = false ->
  truthy (get_opt data "access_token") = true ->
  get_opt data "expires_in" = Num (num_of_Z e) ->
  clock (world n2) + 10000 < clock (world n) + 1000 * e ->
  let stored := snd (fst (getAccessToken cfg tokenCache n)) in
  getAccessToken cfg stored n2 = (Ok (get_opt data "access_token"), stored, n2).
Proof.
  intros Hs Hsend H2 Hp Hn Ht He Hlt stored. unfold stored.
  rewrite (exchanged_cache _ _ _ _ _ _ Hs Hsend H2 Hp Hn), He.
  unfold getAccessToken. cbn [token expiresAt ToNumber]. rewrite Ht.
  destruct (expiry_margin (clock (world n)) e) as (q & -> & Hq).
  assert (Hfresh : num_lt (num_of_Z (clock (world n2))) (Fin q) = true).
  { unfold num_lt, num_of_Z. cbn [fin_value]. apply Qltb_true. rewrite Hq.
    rewrite <- Zlt_Qlt. lia. }
  rewrite Hfresh. reflexivity.
Qed.

(** A token is never served from the cache when the exchange gave no
    [expires_in] (the expiry is then NaN), nor, by a call made at or after
    the exchange, when [expires_in] was ten seconds or less: each such
    call makes a new exchange. *)
Theorem getAccessToken_never_reuses tokenCache n st tx w data n2 :
  truthy (token tokenCache)
  && num_lt (num_of_Z (clock (world n)))
       (num_sub (expiresAt tokenCache) (num_of_Z 10000)) = false ->
  send (world n) (exchange_of cfg) = (Response st tx, w) ->
  is_2xx st = true ->
  JSON_parse tx = Some data ->
  nullish data = false ->
  get_opt data "expires_in" = Undefined
  \/ (exists e, get_opt data "expires_in" = Num (num_of_Z e) /\ e <= 10
                /\ clock (world n) <= clock (world n2)) ->
  let stored := snd (fst (getAccessToken cfg tokenCache n)) in
  sent (snd (getAccessToken cfg stored n2)) = sent n2 ++ [exchange_of cfg].
Proof.
  intros Hs Hsend H2 Hp Hn Hexp stored. unfold stored.
  rewrite (exchanged_cache _ _ _ _ _ _ Hs Hsend H2 Hp Hn).
  apply stale_sends. cbn [token expiresAt].
  destruct Hexp as [-> | (e & -> & He & Hclock)].
  - cbn [ToNumber]. unfold num_mul, num_add, num_sub. cbn.
    apply andb_false_r.
  - cbn [ToNumber].
    destruct (expiry_margin (clock (world n)) e) as (q & -> & Hq).
    assert (Hstale : num_lt (num_of_Z (clock (world n2))) (Fin q) = false).
    { unfold num_lt, num_of_Z. cbn [fin_value]. apply Qltb_false. rewrite Hq.
      rewrite <- Zle_Qle. lia. }
    rewrite Hstale. apply andb_false_r.
Qed.

End TokenReuse.

(** The token of the sample exchange (3600 s) obtained at t = 0 is served
    from the cache at t = 3589999. *)
Lemma getAccessToken_reuses_exchanged_witness :
  let stored := snd (fst (getAccessToken sample_cfg tokenCache0
                            (script [Response 200 text_token] 0))) in
  getAccessToken sample_cfg stored (script [] 3589999)
  = (Ok (Str "tok-2"), stored, script [] 3589999).
Proof.
  exact (@getAccessToken_reuses_exchanged sample_runtime sample_network sample_cfg
           tokenCache0 (script [Response 200 text_token] 0) 200 text_token
           {| answers := []; time := 0 |}
           (Obj [("access_token", Str "tok-2"); ("expires_in", Num (Fin 3600))])
           3600 (script [] 3589999)
           eq_refl eq_refl eq_refl eq_refl eq_refl eq_refl eq_refl eq_refl).
Defined.

Definition text_token_forever : string :=
  "{" +:+ quoted "access_token" +:+ ":" +:+ quoted "tok-3" +:+ "}".

Definition runtime_with (t : string) (v : value) : Runtime :=
  {| JSON_parse := fun s => if String.eqb s t then Some v else sample_parse s;
     StringToNumber := sample_StringToNumber;
     ObjectToNumber := fun _ => NaN;
     ObjectToString := fun _ => "[object Object]";
     JSON_stringify := sample_stringify |}.

(** An answer without [expires_in]: the next call, one millisecond later,
    asks again. *)
Lemma getAccessToken_never_reuses_witness :
  let rt := runtime_with text_token_forever (Obj [("access_token", Str "tok-3")]) in
  let stored := snd (fst (getAccessToken (rt := rt) sample_cfg tokenCache0
                            (script [Response 200 text_token_forever] 0))) in
  sent (snd (getAccessToken (rt := rt) sample_cfg stored (script [] 1)))
  = [TokenRequest "id" "secret"].
Proof.
  exact (@getAccessToken_never_reuses
           (runtime_with text_token_forever (Obj [("access_token", Str "tok-3")]))
           sample_network sample_cfg
           tokenCache0 (script [Response 200 text_token_forever] 0) 200 text_token_forever
           {| answers := []; time := 0 |}
           (Obj [("access_token", Str "tok-3")]) (script [] 1)
           eq_refl eq_refl eq_refl eq_refl eq_refl (or_introl eq_refl)).
Defined.

(** ** More on the Gemini fallback loop *)

Section GeminiMore.
Context {rt : Runtime} {nw : Network}.
Variable cfg : Config.

Lemma candidate_pairs_length models versions :
  length (candidate_pairs models versions) = (length models * length versions)%nat.
Proof.
  induction models as [|m ms IH]; [reflexivity|].
  cbn [candidate_pairs flat_map]. rewrite length_app, length_map.
  fold (candidate_pairs ms versions). rewrite IH. reflexivity.
Qed.

Lemma try_in_order_sends reqs response lastError n :
  exists k, sent (snd (try_in_order reqs response lastError n)) = sent n ++ take k reqs.
Proof.
  revert response lastError n.
  induction reqs as [|rq rs IH]; intros response lastError n.
  - exists 0%nat. simpl. symmetry. apply app_nil_r.
  - cbn [try_in_order]. rewrite requestJson_send.
    destruct (send (world n) rq) as [[st tx|m] w].
    + cbn [status parsed text].
      destruct (is_2xx st).
      * exists 1%nat. reflexivity.
      * destruct (IH (Some (parsed st tx)) (Some tx)
                    {| world := w; sent := sent n ++ [rq] |}) as [k Hk].
        exists (S k). rewrite Hk. cbn [sent take]. rewrite <- app_assoc. reflexivity.
    + exists 1%nat. reflexivity.
Qed.

(** Whatever the answers, the requests of one [callGemini] are an initial
    part of the pairs in nested order: no pair out of order, none twice,
    never more than models times versions. *)
Theorem callGemini_sends_prefix payload n :
  exists k,
    (k <= length (GEMINI_MODELS cfg) * length (GEMINI_API_VERSIONS cfg))%nat
    /\ sent (snd (callGemini cfg payload n))
       = sent n ++ take k (map (gemini_request cfg payload)
                             (candidate_pairs (GEMINI_MODELS cfg) (GEMINI_API_VERSIONS cfg))).
Proof.
  set (reqs := map (gemini_request cfg payload)
                 (candidate_pairs (GEMINI_MODELS cfg) (GEMINI_API_VERSIONS cfg))).
  destruct (try_in_order_sends reqs None None n) as [k Hk].
  exists (min k (length reqs)). split.
  - unfold reqs. rewrite length_map, candidate_pairs_length. lia.
  - rewrite callGemini_scan. fold reqs.
    assert (Ht : take (k `min` length reqs) reqs = take k reqs).
    { destruct (Nat.le_ge_cases k (length reqs)) as [H|H].
      - rewrite Nat.min_l by exact H. reflexivity.
      - rewrite Nat.min_r by exact H. rewrite !take_ge by lia. reflexivity. }
    rewrite Ht, <- Hk.
    destruct (try_in_order reqs None None n) as [[[response lastError]|e] n'];
      [|reflexivity].
    destruct response as [r|]; [|reflexivity].
    destruct (is_2xx (status r)); reflexivity.
Qed.

(** A request that fails in the transport ends the call at once: the
    remaining pairs are not tried and the error thrown is the transport's
    own, not the error of the exhausted loop. *)
Theorem callGemini_transport_abort payload n pre p post outs n1 m w :
  candidate_pairs (GEMINI_MODELS cfg) (GEMINI_API_VERSIONS cfg) = pre ++ p :: post ->
  replay (map (gemini_request cfg payload) pre) n = (outs, n1) ->
  forallb rejected outs = true ->
  send (world n1) (gemini_request cfg payload p) = (Failure m, w) ->
  callGemini cfg payload n
  = (Throw (TransportError m),
     {| world := w; sent := sent n ++ map (gemini_request cfg payload) (pre ++ [p]) |}).
Proof.
  intros Hsplit Hrep Hall Hsend.
  rewrite callGemini_scan, Hsplit, map_app.
  rewrite (try_in_order_rejected _ _ _ _ _ _ _ Hrep Hall).
  cbn [map try_in_order]. rewrite requestJson_send, Hsend.
  rewrite (replay_sent _ _ _ _ Hrep), map_app, app_assoc. reflexivity.
Qed.

End GeminiMore.

(** A 500 on the first pair, then a connection reset on the second: the
    two other pairs are never asked. *)
Lemma callGemini_transport_abort_witness :
  callGemini sample_cfg Null
    (script [Response 500 "boom"; Failure "ECONNRESET"; Response 200 text_answer] 0)
  = (Throw (TransportError "ECONNRESET"),
     {| world := {| answers := [Response 200 text_answer]; time := 0 |};
        sent := [GeminiRequest "v1" "m1" (Str "k") Null;
                 GeminiRequest "v1beta" "m1" (Str "k") Null] |}).
Proof.
  exact (@callGemini_transport_abort sample_runtime sample_network sample_cfg Null
           (script [Response 500 "boom"; Failure "ECONNRESET"; Response 200 text_answer] 0)
           [("m1", "v1")] ("m1", "v1beta") [("m2", "v1"); ("m2", "v1beta")]
           [Response 500 "boom"] _ "ECONNRESET" _ eq_refl eq_refl eq_refl eq_refl).
Defined.

(** ** More on the text search *)

Definition search_request (cfg : Config) (query : string) (pg pgSize : num)
    (baseUrl : string) : Request :=
  OffSearchRequest baseUrl query pg pgSize (lc_es cfg) (lc_es cfg && OFF_STRICT_COUNTRY cfg).

Definition null_read : Exn :=
  TypeError "Cannot read properties of null (reading 'nutriments')".

Definition not_undefined (v : value) : bool :=
  match v with Undefined => false | _ => true end.

Definition is_null (v : value) : bool :=
  match v with Null => true | _ => false end.

(** A value of an item that is either truthy or the empty string. *)
Definition text_or_blank (v : value) : Prop := truthy v = true \/ v = Str "".

Section SearchMore.
Context {rt : Runtime} {nw : Network}.
Variable cfg : Config.

(** [fetchFoods] from [const products = ...] on. *)
Definition search_result (searchJson : value) (pg pgSize : num) : result SearchResponse :=
  its ← products_map (or_else (get_opt searchJson "products") (Arr []));
  Ok {| items := its;
        count := ToNumber (or_else (get_opt searchJson "count") (Num (Fin 0)));
        page := pg;
        pageSize := pgSize |}.

Lemma search_attempt_send baseUrl query pg pgSize n :
  search_attempt cfg baseUrl query pg pgSize n =
  let rq := search_request cfg query pg pgSize baseUrl in
  let n' w := {| world := w; sent := sent n ++ [rq] |} in
  match send (world n) rq with
  | (Failure m, w) => (Throw (TransportError m), n' w)
  | (Response st tx, w) =>
      if failed_attempt (Response st tx) then (Throw (off_error (parsed st tx)), n' w)
      else (Ok (json (parsed st tx)), n' w)
  end.
Proof.
  unfold search_attempt. rewrite requestJson_send.
  fold (search_request cfg query pg pgSize baseUrl).
  destruct (send (world n) _) as [[st tx|m] w]; [|reflexivity].
  rewrite not_2xx. change (status (parsed st tx)) with st. cbn [failed_attempt].
  destruct (is_2xx st); [|reflexivity]. cbn [negb orb].
  destruct (truthy (json (parsed st tx))); reflexivity.
Qed.

Lemma search_loop_failed pre post query pg pgSize lastError n outs n1 :
  replay (map (search_request cfg query pg pgSize) pre) n = (outs, n1) ->
  forallb failed_attempt outs = true ->
  search_loop cfg (pre ++ post) query pg pgSize lastError n =
  search_loop cfg post query pg pgSize
    (match last outs with
     | Some o => Some (attempt_error o)
     | None => lastError
     end) n1.
Proof.
  revert lastError n outs.
  induction pre as [|b pre IH]; intros lastError n outs Hr Hall.
  - simpl in Hr. injection Hr as <- <-. reflexivity.
  - simpl in Hr. cbn [app search_loop]. rewrite search_attempt_send. cbv zeta.
    destruct (send (world n) (search_request cfg query pg pgSize b)) as [o w].
    destruct (replay _ _) as [os n2] eqn:Hrep.
    injection Hr as <- <-.
    simpl in Hall. apply andb_prop in Hall as [Ho Hos].
    assert (Hlast : match last (o :: os) with
                    | Some o' => Some (attempt_error o')
                    | None => lastError
                    end
                    = match last os with
                      | Some o' => Some (attempt_error o')
                      | None => Some (attempt_error o)
                      end).
    { destruct os as [|o' os']; [reflexivity|].
      change (last (o :: o' :: os')) with (last (o' :: os')).
      destruct (last (o' :: os')) eqn:El; [reflexivity|].
      apply last_None in El. discriminate. }
    rewrite Hlast.
    destruct o as [st tx|m].
    + rewrite Ho. apply (IH _ _ _ Hrep Hos).
    + apply (IH _ _ _ Hrep Hos).
Qed.

Lemma fetchFoods_search_result query req_page req_size n :
  fetchFoods cfg query req_page req_size n =
  match search_loop cfg (baseUrls cfg) query (safePage req_page) (safePageSize req_size)
          None n with
  | (None, lastError, n') =>
      (Throw (match lastError with
              | Some e => e
              | None => UpstreamError "Open Food Facts error"
              end), n')
  | (Some searchJson, _, n') =>
      (search_result searchJson (safePage req_page) (safePageSize req_size), n')
  end.
Proof.
  unfold fetchFoods, search_result.
  destruct (search_loop _ _ _ _ _ _ _) as [[[searchJson|] lastError] n']; [|reflexivity].
  destruct (products_map _); reflexivity.
Qed.

(** The search stops at the first base URL that answers with a 2xx status
    and a truthy JSON body: the failed attempts before it leave no trace
    in the result, and the base URLs after it are not asked. *)
Theorem fetchFoods_first_success query req_page req_size n pre b post outs n1 st tx w :
  baseUrls cfg = pre ++ b :: post ->
  let rq := search_request cfg query (safePage req_page) (safePageSize req_size) in
  replay (map rq pre) n = (outs, n1) ->
  forallb failed_attempt outs = true ->
  send (world n1) (rq b) = (Response st tx, w) ->
  failed_attempt (Response st tx) = false ->
  fetchFoods cfg query req_page req_size n
  = (search_result (json (parsed st tx)) (safePage req_page) (safePageSize req_size),
     {| world := w; sent := sent n ++ map rq (pre ++ [b]) |}).
Proof.
  intros Hsplit rq Hrep Hall Hsend Hok.
  rewrite fetchFoods_search_result, Hsplit.
  rewrite (search_loop_failed _ _ _ _ _ _ _ _ _ Hrep Hall).
  cbn [search_loop]. rewrite search_attempt_send. cbv zeta.
  fold rq. rewrite Hsend, Hok.
  rewrite (replay_sent _ _ _ _ Hrep), map_app, app_assoc. reflexivity.
Qed.

(** When every base URL fails (transport failure, status outside 200..299
    or no truthy JSON body) the search throws the error of the last
    attempt after asking each base URL once. *)
Theorem fetchFoods_all_failed query req_page req_size n outs n1 :
  let rq := search_request cfg query (safePage req_page) (safePageSize req_size) in
  replay (map rq (baseUrls cfg)) n = (outs, n1) ->
  forallb failed_attempt outs = true ->
  exists o,
    last outs = Some o
    /\ fetchFoods cfg query req_page req_size n = (Throw (attempt_error o), n1)
    /\ sent n1 = sent n ++ map rq (baseUrls cfg).
Proof.
  intros rq Hrep Hall.
  assert (Hne : exists o, last outs = Some o).
  { apply replay_length in Hrep as Hlen.
    destruct (last outs) eqn:El; [eauto|].
    apply last_None in El. subst outs. discriminate. }
  destruct Hne as [o Ho]. exists o. split; [exact Ho|]. split.
  - rewrite fetchFoods_search_result.
    rewrite <- (app_nil_r (baseUrls cfg)).
    rewrite (search_loop_failed _ [] _ _ _ None _ _ _ Hrep Hall).
    cbn [search_loop]. rewrite Ho. reflexivity.
  - exact (replay_sent _ _ _ _ Hrep).
Qed.

Lemma map_items_Forall2 products its :
  map_items products = Ok its ->
  Forall2 (fun item it => search_item item = Ok it) products its.
Proof.
  revert its. induction products as [|item rest IH]; intros its H; simpl in H.
  - injection H as <-. constructor.
  - destruct (search_item item) as [it0|e] eqn:E0; [|discriminate].
    destruct (map_items rest) as [its0|e] eqn:E1; [|discriminate].
    simpl in H. injection H as <-.
    constructor; [exact E0|apply IH; reflexivity].
Qed.

(** The items of a successful search follow the product entries of the
    answer one for one and in their order; an answer without a truthy
    [products] gives no item; [count] is the answer's, 0 when absent. *)
Theorem fetchFoods_items_follow_products query req_page req_size n r n' :
  fetchFoods cfg query req_page req_size n = (Ok r, n') ->
  exists searchJson lastError,
    search_loop cfg (baseUrls cfg) query (safePage req_page) (safePageSize req_size) None n
    = (Some searchJson, lastError, n')
    /\ (truthy (get_opt searchJson "products") = false -> items r = [])
    /\ (forall l, get_opt searchJson "products" = Arr l ->
        Forall2 (fun item it => search_item item = Ok it) l (items r))
    /\ (truthy (get_opt searchJson "count") = false -> count r = Fin 0).
Proof.
  rewrite fetchFoods_search_result.
  destruct (search_loop _ _ _ _ _ _ _) as [[[searchJson|] lastError] n1] eqn:El;
    [|discriminate].
  unfold search_result. intros H.
  destruct (products_map _) as [its|e] eqn:Ep; [|discriminate].
  cbn in H. injection H as <- <-.
  exists searchJson, lastError. split; [reflexivity|]. cbn [items count].
  split; [|split].
  - intros Hf. unfold or_else in Ep. rewrite Hf in Ep. simpl in Ep.
    injection Ep as <-. reflexivity.
  - intros l Hl. unfold or_else in Ep. rewrite Hl in Ep. cbn [truthy products_map] in Ep.
    apply map_items_Forall2, Ep.
  - intros Hc. unfold or_else. rewrite Hc. reflexivity.
Qed.

Lemma or_else_text_or_blank a b :
  text_or_blank b -> text_or_blank (or_else a b).
Proof.
  intros Hb. unfold or_else. destruct (truthy a) eqn:E; [left; exact E|exact Hb].
Qed.

(** Every item of a successful search has a truthy name (the product name,
    the Spanish name, or "Producto" followed by the code), and a brand
    and an image URL that are truthy or the empty string. *)
Theorem fetchFoods_items_named query req_page req_size n r n' :
  fetchFoods cfg query req_page req_size n = (Ok r, n') ->
  forall it, In it (items r) ->
    truthy (name it) = true /\ text_or_blank (brand it) /\ text_or_blank (image_url it).
Proof.
  rewrite fetchFoods_search_result.
  destruct (search_loop _ _ _ _ _ _ _) as [[[searchJson|] lastError] n1]; [|discriminate].
  unfold search_result. intros H it Hin.
  destruct (or_else (get_opt searchJson "products") (Arr [])) as [| | | | |l|];
    try discriminate.
  cbn [products_map] in H.
  destruct (map_items l) as [its|e] eqn:Em; [|discriminate].
  cbn in H. injection H as <- <-. cbn [items] in Hin.
  destruct (map_items_In _ _ _ Em Hin) as (item & _ & Hit).
  unfold search_item in Hit.
  destruct (get item "nutriments") as [n0|e]; [|discriminate].
  cbn in Hit. injection Hit as <-. cbn [name brand image_url].
  split; [|split].
  - unfold or_else.
    destruct (truthy (get_opt item "product_name")) eqn:E1; [exact E1|].
    destruct (truthy (get_opt item "product_name_es")) eqn:E2; [exact E2|].
    reflexivity.
  - do 2 apply or_else_text_or_blank. right. reflexivity.
  - do 3 apply or_else_text_or_blank. right. reflexivity.
Qed.

Lemma map_items_null l :
  existsb is_null l = true -> forallb not_undefined l = true ->
  map_items l = Throw null_read.
Proof.
  induction l as [|item rest IH]; [discriminate|].
  cbn [existsb forallb]. intros He Hd. apply andb_prop in Hd as [Hi Hr].
  cbn [map_items].
  destruct item; try discriminate; try reflexivity.
  all: cbn [is_null orb] in He; cbn; rewrite (IH He Hr); reflexivity.
Qed.

(** One [null] among the product entries of the answer makes the whole
    search throw the TypeError of reading a property of [null]; a truthy
    [products] that is not an array makes it throw as well.  No partial
    list is returned. *)
Theorem fetchFoods_malformed_products query req_page req_size n searchJson lastError n' :
  search_loop cfg (baseUrls cfg) query (safePage req_page) (safePageSize req_size) None n
  = (Some searchJson, lastError, n') ->
  (forall l, get_opt searchJson "products" = Arr l ->
     existsb is_null l = true -> forallb not_undefined l = true ->
     fetchFoods cfg query req_page req_size n = (Throw null_read, n'))
  /\ (truthy (get_opt searchJson "products") = true ->
      (forall l, get_opt searchJson "products" <> Arr l) ->
      fetchFoods cfg query req_page req_size n
      = (Throw (TypeError "products.map is not a function"), n')).
Proof.
  intros Hloop. split.
  - intros l Hl He Hd. rewrite fetchFoods_search_result, Hloop.
    unfold search_result, or_else. rewrite Hl. cbn [truthy products_map].
    rewrite (map_items_null _ He Hd). reflexivity.
  - intros Ht Hna. rewrite fetchFoods_search_result, Hloop.
    unfold search_result, or_else. rewrite Ht.
    destruct (get_opt searchJson "products") as [| | | | |l|]; try reflexivity.
    exfalso. exact (Hna l eq_refl).
Qed.

End SearchMore.

(** The Spanish database is down, the world database answers: two
    requests, and the result is built from the second answer. *)
Lemma fetchFoods_first_success_witness :
  fetchFoods sample_cfg "leche" (Num (Fin 1)) (Num (Fin 2))
    (script [Response 503 "down"; Response 200 text_products; Response 200 ""] 0)
  = (search_result (json (parsed 200 text_products)) (Fin 1) (Fin 2),
     {| world := {| answers := [Response 200 ""]; time := 0 |};
        sent := [OffSearchRequest es_url "leche" (Fin 1) (Fin 2) true false;
                 OffSearchRequest world_url "leche" (Fin 1) (Fin 2) true false] |}).
Proof.
  exact (@fetchFoods_first_success sample_runtime sample_network sample_cfg
           "leche" (Num (Fin 1)) (Num (Fin 2))
           (script [Response 503 "down"; Response 200 text_products; Response 200 ""] 0)
           [es_url] world_url [] [Response 503 "down"] _ 200 text_products _
           eq_refl eq_refl eq_refl eq_refl eq_refl).
Defined.

Lemma fetchFoods_all_failed_witness :
  fetchFoods sample_cfg "leche" (Num (Fin 1)) (Num (Fin 2))
    (script [Response 503 "down"; Failure "ETIMEDOUT"] 0)
  = (Throw (TransportError "ETIMEDOUT"),
     {| world := {| answers := []; time := 0 |};
        sent := [OffSearchRequest es_url "leche" (Fin 1) (Fin 2) true false;
                 OffSearchRequest world_url "leche" (Fin 1) (Fin 2) true false] |}).
Proof.
  destruct (@fetchFoods_all_failed sample_runtime sample_network sample_cfg
              "leche" (Num (Fin 1)) (Num (Fin 2))
              (script [Response 503 "down"; Failure "ETIMEDOUT"] 0)
              [Response 503 "down"; Failure "ETIMEDOUT"] _ eq_refl eq_refl)
    as (o & Ho & Hf & _).
  injection Ho as <-. exact Hf.
Defined.

Lemma fetchFoods_items_follow_products_witness :
  match fetchFoods sample_cfg "leche" (Num (Fin 1)) (Num (Fin 2))
          (script [Response 200 text_products] 0) with
  | (Ok r, _) => length (items r) = 1%nat
  | (Throw _, _) => False
  end.
Proof.
  destruct (fetchFoods sample_cfg "leche" (Num (Fin 1)) (Num (Fin 2))
              (script [Response 200 text_products] 0)) as [[r|e] n'] eqn:E.
  - destruct (fetchFoods_items_follow_products sample_cfg _ _ _ _ _ _ E)
      as (searchJson & lastError & Hloop & _ & Hitems & _).
    vm_compute in Hloop. injection Hloop as <- _ _.
    pose proof (Hitems _ eq_refl) as HF. apply Forall2_length in HF.
    symmetry. exact HF.
  - vm_compute in E. discriminate E.
Defined.

Lemma fetchFoods_items_named_witness :
  match fetchFoods sample_cfg "leche" (Num (Fin 1)) (Num (Fin 2))
          (script [Response 200 text_products] 0) with
  | (Ok r, _) =>
      match items r with
      | it :: _ => truthy (name it) = true
      | [] => False
      end
  | (Throw _, _) => False
  end.
Proof.
  destruct (fetchFoods sample_cfg "leche" (Num (Fin 1)) (Num (Fin 2))
              (script [Response 200 text_products] 0)) as [[r|e] n'] eqn:E.
  - destruct (items r) as [|it its] eqn:Ei.
    + vm_compute in E. injection E as <- _. discriminate Ei.
    + apply (fetchFoods_items_named sample_cfg _ _ _ _ _ _ E it).
      rewrite Ei. left. reflexivity.
  - vm_compute in E. discriminate E.
Defined.

Definition text_null_product : string :=
  "{" +:+ quoted "products" +:+ ":[{" +:+ quoted "code" +:+ ":" +:+ quoted "84" +:+ "},null]}".

Definition runtime_null_product : Runtime :=
  runtime_with text_null_product
    (Obj [("products", Arr [Obj [("code", Str "84")]; Null])]).

(** A list with a good entry and a [null]: no item is returned. *)
Lemma fetchFoods_malformed_products_witness :
  fetchFoods (rt := runtime_null_product) sample_cfg "leche" (Num (Fin 1)) (Num (Fin 2))
    (script [Response 200 text_null_product] 0)
  = (Throw null_read,
     {| world := {| answers := []; time := 0 |};
        sent := [OffSearchRequest es_url "leche" (Fin 1) (Fin 2) true false] |}).
Proof.
  exact (proj1 (@fetchFoods_malformed_products runtime_null_product sample_network
                  sample_cfg "leche" (Num (Fin 1)) (Num (Fin 2))
                  (script [Response 200 text_null_product] 0)
                  (Obj [("products", Arr [Obj [("code", Str "84")]; Null])]) None _
                  eq_refl)
           [Obj [("code", Str "84")]; Null] eq_refl eq_refl eq_refl).
Defined.

(** ** More on the search route *)

Section RouteMore.
Context {rt : Runtime} {nw : Network}.
Variable cfg : Config.

(** The route answers 200, 400 or 500.  A 400 touches neither the cache
    nor the network.  After a 500 there is no entry under the key of the
    request: a failure is never cached, and an expired entry found on the
    way is gone. *)
Theorem search_route_failures q page_p size_p (searchCache : gmap string CacheEntry) n :
  let out := search_route cfg q page_p size_p searchCache n in
  let reply := fst (fst out) in
  (code reply = 200 \/ code reply = 400 \/ code reply = 500)
  /\ (code reply = 400 -> snd (fst out) = searchCache /\ snd out = n)
  /\ (code reply = 500 ->
      exists query,
        q = Some query
        /\ snd (fst out)
           !! cacheKey_of cfg query (number_param page_p 1) (number_param size_p 12)
           = None).
Proof.
  unfold search_route.
  destruct q as [query|]; [|cbn; repeat split; try tauto; discriminate].
  destruct (is_empty query); [cbn; repeat split; try tauto; discriminate|].
  set (key := cacheKey_of cfg query (number_param page_p 1) (number_param size_p 12)).
  unfold cache_get.
  destruct (searchCache !! key) as [cached|] eqn:El.
  - destruct (cache_expiresAt cached >? clock (world n)).
    + cbn. repeat split; try tauto; discriminate.
    + destruct (fetchFoods _ _ _ _ _) as [[d|e] n1].
      * cbn. repeat split; try tauto; discriminate.
      * cbn. split; [tauto|]. split; [discriminate|].
        intros _. exists query. split; [reflexivity|]. apply lookup_delete_eq.
  - destruct (fetchFoods _ _ _ _ _) as [[d|e] n1].
    + cbn. repeat split; try tauto; discriminate.
    + cbn. split; [tauto|]. split; [discriminate|].
      intros _. exists query. split; [reflexivity|exact El].
Qed.

(** The same search asked again within five minutes of a fetched answer is
    served from the cache: same status and body, no request, cache
    unchanged. *)
Theorem search_route_repeat query page_p size_p (searchCache : gmap string CacheEntry)
    n reply cache1 n1 n2 :
  let key := cacheKey_of cfg query (number_param page_p 1) (number_param size_p 12) in
  fst (cache_get (clock (world n)) key searchCache) = None ->
  search_route cfg (Some query) page_p size_p searchCache n = (reply, cache1, n1) ->
  code reply = 200 ->
  clock (world n2) < clock (world n1) + SEARCH_CACHE_TTL_MS ->
  search_route cfg (Some query) page_p size_p cache1 n2 = (reply, cache1, n2).
Proof.
  intros key Hmiss Hfirst H200 Hlt.
  unfold search_route in Hfirst.
  destruct (is_empty query) eqn:Hq.
  { injection Hfirst as <- _ _. discriminate H200. }
  fold key in Hfirst.
  destruct (cache_get (clock (world n)) key searchCache) as [[d0|] c'];
    [discriminate Hmiss|].
  destruct (fetchFoods _ _ _ _ _) as [[d|e] n'].
  - injection Hfirst as <- <- <-.
    apply (search_route_hit cfg query page_p size_p _ n2
             {| data := d; cache_expiresAt := clock (world n') + SEARCH_CACHE_TTL_MS |}).
    + exact Hq.
    + apply lookup_insert_eq.
    + exact Hlt.
  - injection Hfirst as <- _ _. discriminate H200.
Qed.

End RouteMore.

Lemma search_route_failures_witness :
  let out := search_route sample_cfg (Some "leche") None None ∅
               (script [Response 503 "down"; Failure "ETIMEDOUT"] 0) in
  code (fst (fst out)) = 500
  /\ snd (fst out) !! cacheKey_of sample_cfg "leche" (Fin 1) (Fin 12) = None.
Proof.
  intros out.
  destruct (@search_route_failures sample_runtime sample_network sample_cfg
              (Some "leche") None None ∅
              (script [Response 503 "down"; Failure "ETIMEDOUT"] 0))
    as (_ & _ & H500).
  split; [reflexivity|].
  destruct (H500 eq_refl) as (query & Hq & Hkey).
  injection Hq as <-. exact Hkey.
Defined.

(** A search fetched at t = 0 and asked again at t = 299999, while the
    provider is unreachable. *)
Lemma search_route_repeat_witness :
  let first := search_route sample_cfg (Some "leche") None None ∅
                 (script [Response 200 text_products] 0) in
  search_route sample_cfg (Some "leche") None None (snd (fst first)) (script [] 299999)
  = (fst (fst first), snd (fst first), script [] 299999).
Proof.
  intros first.
  apply (@search_route_repeat sample_runtime sample_network sample_cfg
           "leche" None None ∅ (script [Response 200 text_products] 0)
           (fst (fst first)) (snd (fst first)) (snd first)).
  - reflexivity.
  - unfold first.
    destruct (search_route sample_cfg (Some "leche") None None ∅
                (script [Response 200 text_products] 0)) as [[r c] m].
    reflexivity.
  - reflexivity.
  - vm_compute. reflexivity.
Defined.

(** ** More on the barcode lookup *)






Section BarcodeMore.
Context {rt : Runtime} {nw : Network}.
Variable cfg : Config.

(** [findFoodByBarcode] once the response the loop ends on is known to
    carry a truthy JSON value. *)
Lemma findFoodByBarcode_response barcode n r :
  barcode_response cfg barcode n = Some r ->
  truthy (json r) = true ->
  fst (findFoodByBarcode cfg barcode n)
  = if strict_neq_num (get_opt (json r) "status") (Fin 1)
    then Throw (not_found barcode)
    else barcode_product barcode (json r).
Proof.
  unfold barcode_response, findFoodByBarcode.
  destruct (barcode_loop _ _ _ _ _ _) as [[response lastError] n1].
  cbn [fst]. intros -> Hj. unfold barcode_after. rewrite Hj. reflexivity.
Qed.

(** The answer of the last base URL is processed whatever its status: once
    its body is a truthy JSON value, a 500 and a 200 give the same result
    (not found for a status flag other than 1, else the product). *)
Theorem findFoodByBarcode_last_status_ignored barcode n pre b outs n1 st tx w :
  baseUrls cfg = pre ++ [b] ->
  replay (map (barcode_request cfg barcode) pre) n = (outs, n1) ->
  forallb failed_attempt outs = true ->
  send (world n1) (barcode_request cfg barcode b) = (Response st tx, w) ->
  truthy (json (parsed st tx)) = true ->
  findFoodByBarcode cfg barcode n
  = (if strict_neq_num (get_opt (json (parsed st tx)) "status") (Fin 1)
     then Throw (not_found barcode)
     else barcode_product barcode (json (parsed st tx)),
     {| world := w; sent := sent n1 ++ [barcode_request cfg barcode b] |}).
Proof.
  intros Hsplit Hrep Hall Hsend Hj.
  unfold findFoodByBarcode. rewrite Hsplit.
  rewrite (barcode_loop_failed _ _ _ _ _ _ _ _ _ Hrep Hall).
  cbn [barcode_loop]. rewrite requestJson_send.
  fold (barcode_request cfg barcode b). rewrite Hsend.
  rewrite not_2xx. change (status (parsed st tx)) with st.
  destruct (is_2xx st); cbn [negb].
  - rewrite Hj. cbn [negb]. unfold barcode_after. rewrite Hj. reflexivity.
  - unfold barcode_after. rewrite Hj. reflexivity.
Qed.

(** A found product (status flag 1) without a [product] object, or whose
    [serving_size] is truthy but not a string, makes the lookup throw a
    TypeError, which the route answers with 500. *)
Theorem barcode_route_malformed_product barcode n r :
  is_empty barcode = false ->
  barcode_response cfg barcode n = Some r ->
  truthy (json r) = true ->
  strict_neq_num (get_opt (json r) "status") (Fin 1) = false ->
  let product := get_opt (json r) "product" in
  nullish product = true
  \/ (nullish product = false
      /\ truthy (get_opt product "serving_size") = true
      /\ forall s, get_opt product "serving_size" <> Str s) ->
  code (fst (barcode_route cfg (Some barcode) n)) = 500
  /\ exists m, fst (findFoodByBarcode cfg barcode n) = Throw (TypeError m).
Proof.
  intros Hb Hr Hj Hs product Hbad.
  pose proof (findFoodByBarcode_response _ _ _ Hr Hj) as Hf. rewrite Hs in Hf.
  assert (Hthrow : exists m,
             barcode_product barcode (json r) = Throw (TypeError m)
             /\ includes not_found_marker m = false).
  { unfold barcode_product. fold product.
    destruct Hbad as [Hn | (Hn & Ht & Hns)].
    - destruct product; try discriminate; eexists; split; reflexivity.
    - assert (Hget : get product "nutriments" = Ok (get_opt product "nutriments")).
      { destruct product; try discriminate; reflexivity. }
      rewrite Hget. cbn [mbind result_bind].
      unfold servings_of. rewrite Ht.
      destruct (get_opt product "serving_size") as [| | | |s| |];
        try (eexists; split; reflexivity).
      exfalso. exact (Hns s eq_refl). }
  destruct Hthrow as (m & Hm & Hinc). rewrite Hm in Hf.
  split; [|exists m; exact Hf].
  unfold barcode_route. rewrite Hb.
  destruct (findFoodByBarcode cfg barcode n) as [res n'].
  cbn [fst] in Hf. subst res. cbn [fst code].
  unfold barcode_error_status. cbn [message]. rewrite Hinc. reflexivity.
Qed.


End BarcodeMore.

(** The world database, asked last, answers 500 with the JSON of a found
    product: the product is returned. *)
Lemma findFoodByBarcode_last_status_ignored_witness :
  match findFoodByBarcode sample_cfg "84"
          (script [Failure "ETIMEDOUT"; Response 500 text_product_250g] 0) with
  | (Ok p, _) => food_id p = "84"
  | (Throw _, _) => False
  end.
Proof.
  rewrite (@findFoodByBarcode_last_status_ignored sample_runtime sample_network
             sample_cfg "84"
             (script [Failure "ETIMEDOUT"; Response 500 text_product_250g] 0)
             [es_url] world_url [Failure "ETIMEDOUT"] _ 500 text_product_250g _
             eq_refl eq_refl eq_refl eq_refl eq_refl).
  reflexivity.
Defined.

Definition text_no_product : string := "{" +:+ quoted "status" +:+ ":1}".

Definition runtime_no_product : Runtime :=
  runtime_with text_no_product (Obj [("status", Num (Fin 1))]).

Lemma barcode_route_malformed_product_witness :
  code (fst (barcode_route (rt := runtime_no_product) sample_cfg (Some "84")
               (script [Response 200 text_no_product] 0))) = 500.
Proof.
  exact (proj1 (@barcode_route_malformed_product runtime_no_product sample_network
                  sample_cfg "84" (script [Response 200 text_no_product] 0)
                  (@parsed runtime_no_product 200 text_no_product)
                  eq_refl eq_refl eq_refl eq_refl (or_introl eq_refl))).
Defined.


(** ** The food details gateway *)

(** The [food.get] method of the nutrition platform, answered by the same
    world: the food id and the [Authorization] header of the request. *)
Class FoodApi {nw : Network} : Type := {
  food_get : World -> string -> string -> Outcome * World
}.

(** A serving of the answer of [/api/food]; the fields are its keys
    [serving_description], [calories], [protein], [fat], [carbohydrate],
    [metric_serving_amount] and [metric_serving_unit]. *)
Record FoodServing : Type := {
  fs_description : value;
  fs_calories : num;
  fs_protein : num;
  fs_fat : num;
  fs_carbohydrate : num;
  fs_amount : num;
  fs_unit : value
}.

(** The answer of [/api/food], with its keys [name], [brand] and
    [servings]. *)
Record FoodDetails : Type := {
  details_name : value;
  details_brand : value;
  details_servings : list FoodServing
}.

(** [n || 0] on a number. *)
Definition number_or_zero (n : num) : num := if truthy (Num n) then n else Fin 0.

(** A number that is neither NaN nor negative zero, and is [+0] when it
    is zero. *)
Definition plain_number (n : num) : Prop :=
  is_nan n = false /\ n <> NegZero /\ (is_zero n = true -> n = Fin 0).

Definition is_array (v : value) : bool :=
  match v with Arr _ => true | _ => false end.

Section FoodDetailsModel.
Context {rt : Runtime} {nw : Network} {fa : FoodApi}.
Variable cfg : Config.

(** The arrow function given to [map] in [fetchFoodDetails]; [serving] is
    truthy. *)
Definition food_serving (serving : value) : FoodServing :=
  {| fs_description := get_opt serving "serving_description";
     fs_calories := number_or_zero (ToNumber (get_opt serving "calories"));
     fs_protein := number_or_zero (ToNumber (get_opt serving "protein"));
     fs_fat := number_or_zero (ToNumber (get_opt serving "fat"));
     fs_carbohydrate := number_or_zero (ToNumber (get_opt serving "carbohydrate"));
     fs_amount := number_or_zero (ToNumber (get_opt serving "metric_serving_amount"));
     fs_unit := or_else (get_opt serving "metric_serving_unit") (Str "") |}.

(** [details?.food?.servings?.serving] *)
Definition servings_field (details : value) : value :=
  get_opt (get_opt (get_opt details "food") "servings") "serving".

(** [Array.isArray(servings) ? servings : [servings]] *)
Definition servings_list (servings : value) : list value :=
  match servings with
  | Arr l => l
  | _ => [servings]
  end.

(** [fetchFoodDetails] from [const details = detailsResponse.json] on. *)
Definition food_details (details : value) : FoodDetails :=
  let list := servings_list (servings_field details) in
  {| details_name := or_else (get_opt (get_opt details "food") "food_name") (Str "");
     details_brand := or_else (get_opt (get_opt details "food") "brand_name") (Str "");
     details_servings := map food_serving (List.filter truthy list) |}.

Definition details_error (tx : string) : Exn :=
  UpstreamError ("FatSecret details error: " +:+ tx).

Definition fetchFoodDetails (foodId : string) (tokenCache : TokenCache) (n : Net)
  : result FoodDetails * TokenCache * Net :=
  match getAccessToken cfg tokenCache n with
  | (Throw e, tokenCache', n') => (Throw e, tokenCache', n')
  | (Ok token, tokenCache', n') =>
      let (o, w) := food_get (world n') foodId ("Bearer " +:+ ToString token) in
      let n'' := {| world := w; sent := sent n' |} in
      match o with
      | Failure m => (Throw (TransportError m), tokenCache', n'')
      | Response st tx =>
          let detailsResponse := parsed st tx in
          if (status detailsResponse <? 200) || (status detailsResponse >=? 300)
          then (Throw (details_error tx), tokenCache', n'')
          else if negb (truthy (json detailsResponse))
          then (Throw (details_error tx), tokenCache', n'')
          else (Ok (food_details (json detailsResponse)), tokenCache', n'')
      end
  end.

Lemma number_or_zero_plain n : plain_number (number_or_zero n).
Proof.
  unfold number_or_zero, plain_number. cbn [truthy].
  destruct (is_nan n) eqn:En; cbn [orb negb].
  - repeat split; try discriminate.
  - destruct (is_zero n) eqn:Ez; cbn [negb].
    + repeat split; try discriminate.
    + split; [exact En|]. split; [|congruence].
      intros ->. discriminate.
Qed.

(** No number of a returned serving is NaN or negative zero: a value that
    is missing, not numeric or zero is replaced by 0. *)
Theorem food_details_numbers details :
  Forall (fun s => plain_number (fs_calories s) /\ plain_number (fs_protein s)
                   /\ plain_number (fs_fat s) /\ plain_number (fs_carbohydrate s)
                   /\ plain_number (fs_amount s))
    (details_servings (food_details details)).
Proof.
  unfold food_details. cbn [details_servings].
  apply List.Forall_forall. intros s Hs.
  apply in_map_iff in Hs as (serving & <- & _).
  cbn [food_serving fs_calories fs_protein fs_fat fs_carbohydrate fs_amount].
  repeat split; apply number_or_zero_plain.
Qed.

(** The servings of the answer: a list keeps its truthy entries in order,
    a single truthy value counts as one serving, and a missing food,
    [servings] or [serving] gives none; name and brand are then the empty
    string. *)
Theorem food_details_servings details :
  (forall l, servings_field details = Arr l ->
     map fs_description (details_servings (food_details details))
     = map (fun s => get_opt s "serving_description") (List.filter truthy l))
  /\ (is_array (servings_field details) = false ->
      truthy (servings_field details) = true ->
      details_servings (food_details details) = [food_serving (servings_field details)])
  /\ (is_array (servings_field details) = false ->
      truthy (servings_field details) = false ->
      details_servings (food_details details) = [])
  /\ (nullish (get_opt details "food") = true ->
      food_details details
      = {| details_name := Str ""; details_brand := Str ""; details_servings := [] |}).
Proof.
  unfold food_details. cbn [details_servings]. split; [|split; [|split]].
  - intros l ->. cbn [servings_list]. rewrite map_map. reflexivity.
  - intros Ha Ht. destruct (servings_field details); try discriminate;
      cbn [servings_list List.filter]; rewrite Ht; reflexivity.
  - intros Ha Ht. destruct (servings_field details); try discriminate;
      cbn [servings_list List.filter]; try rewrite Ht; reflexivity.
  - intros Hn. unfold servings_field.
    destruct (get_opt details "food"); try discriminate; reflexivity.
Qed.

(** When the token cannot be obtained the lookup fails with the same
    error, the platform is not asked and the token cache is as before.
    With a fresh cached token no token request is made and the platform
    is asked with that token as bearer: a 2xx answer with a truthy JSON
    body always gives details, any other answer the details error. *)
Theorem fetchFoodDetails_token foodId tokenCache n :
  (forall e, fst (fst (getAccessToken cfg tokenCache n)) = Throw e ->
     fetchFoodDetails foodId tokenCache n
     = (Throw e, tokenCache, snd (getAccessToken cfg tokenCache n)))
  /\ (truthy (token tokenCache)
      && num_lt (num_of_Z (clock (world n)))
           (num_sub (expiresAt tokenCache) (num_of_Z 10000)) = true ->
      forall st tx w,
        food_get (world n) foodId ("Bearer " +:+ ToString (token tokenCache))
        = (Response st tx, w) ->
        fetchFoodDetails foodId tokenCache n
        = (if is_2xx st && truthy (json (parsed st tx))
           then Ok (food_details (json (parsed st tx)))
           else Throw (details_error tx),
           tokenCache, {| world := w; sent := sent n |})).
Proof.
  split.
  - intros e He.
    pose proof (getAccessToken_throw_keeps_cache cfg tokenCache n e He) as Hk.
    unfold fetchFoodDetails.
    destruct (getAccessToken cfg tokenCache n) as [[res tc'] n'].
    cbn [fst snd] in *. subst res tc'. reflexivity.
  - intros Hfresh st tx w Hget. unfold fetchFoodDetails, getAccessToken.
    rewrite Hfresh, Hget. rewrite not_2xx. change (status (parsed st tx)) with st.
    destruct (is_2xx st); [|reflexivity]. cbn [negb andb].
    destruct (truthy (json (parsed st tx))); reflexivity.
Qed.

End FoodDetailsModel.

Definition text_food : string :=
  "{" +:+ quoted "food" +:+ ":{" +:+ quoted "food_name" +:+ ":" +:+ quoted "Leche" +:+ ","
      +:+ quoted "servings" +:+ ":{" +:+ quoted "serving" +:+ ":{"
      +:+ quoted "serving_description" +:+ ":" +:+ quoted "1 vaso" +:+ ","
      +:+ quoted "calories" +:+ ":" +:+ quoted "abc" +:+ "}}}}".

Definition value_food : value :=
  Obj [("food",
        Obj [("food_name", Str "Leche");
             ("servings",
              Obj [("serving",
                    Obj [("serving_description", Str "1 vaso");
                         ("calories", Str "abc")])])])].

Definition runtime_food : Runtime := runtime_with text_food value_food.

(** The platform of the examples answers like the scripted world. *)
#[local] Instance sample_food_api : FoodApi (nw := sample_network) := {
  food_get := fun w _ _ =>
    match answers w with
    | o :: rest => (o, {| answers := rest; time := time w |})
    | [] => (Failure "ECONNREFUSED", w)
    end
}.

(** A single serving object whose calories are not a number: one serving
    with 0 calories. *)
Lemma food_details_servings_witness :
  map fs_calories (details_servings (food_details (rt := runtime_food) value_food))
  = [Fin 0].
Proof.
  rewrite (proj1 (proj2 (@food_details_servings runtime_food value_food))
             eq_refl eq_refl).
  reflexivity.
Defined.

(** A stale token and a 401 on the exchange: the platform is not asked. *)
Lemma fetchFoodDetails_token_witness :
  fetchFoodDetails (rt := runtime_food) sample_cfg "33691" tokenCache0
    (script [Response 401 "denied"; Response 200 text_food] 0)
  = (Throw (AuthError "FatSecret token error: denied"), tokenCache0,
     {| world := {| answers := [Response 200 text_food]; time := 0 |};
        sent := [TokenRequest "id" "secret"] |})
  /\ fetchFoodDetails (rt := runtime_food) sample_cfg "33691"
       {| token := Str "tok-1"; expiresAt := Fin 100000 |}
       (script [Response 200 text_food] 0)
     = (Ok (food_details (rt := runtime_food) value_food),
        {| token := Str "tok-1"; expiresAt := Fin 100000 |}, script [] 0).
Proof.
  split.
  - exact (proj1 (@fetchFoodDetails_token runtime_food sample_network sample_food_api
                    sample_cfg "33691" tokenCache0
                    (script [Response 401 "denied"; Response 200 text_food] 0))
             _ eq_refl).
  - exact (proj2 (@fetchFoodDetails_token runtime_food sample_network sample_food_api
                    sample_cfg "33691" {| token := Str "tok-1"; expiresAt := Fin 100000 |}
                    (script [Response 200 text_food] 0))
             eq_refl 200 text_food {| answers := []; time := 0 |} eq_refl).
Defined.

(** ** The two Gemini routes *)

Definition a_acute : ascii := ascii_of_N 225.

(** The prompt of [/api/food-suggest]. *)
Definition suggest_prompt (query : string) : string :=
  "Para el alimento " +:+ quoted query +:+ ", devuelve SOLO JSON v"
  +:+ String a_acute "lido con claves: kcal, protein_g, fat_g, carbs_g, "
  +:+ "per_amount, per_unit. Usa valores por 100g o 100ml (per_amount=100, per_unit="
  +:+ quoted "g" +:+ " o " +:+ quoted "ml" +:+ "). Si no est"
  +:+ String a_acute "s seguro, usa null.".

(** The prompt of [/api/label-ocr]. *)
Definition ocr_prompt : string :=
  "Extrae los valores nutricionales por 100g o 100ml. Responde SOLO con JSON v"
  +:+ String a_acute "lido con claves: kcal, protein_g, fat_g, carbs_g, "
  +:+ "per_amount, per_unit. Si no encuentras un valor, usa null.".

Definition suggest_payload (query : string) : value :=
  Obj [("contents",
        Arr [Obj [("role", Str "user");
                  ("parts", Arr [Obj [("text", Str (suggest_prompt query))]])]])].

Definition ocr_payload (image mimeType : value) : value :=
  Obj [("contents",
        Arr [Obj [("role", Str "user");
                  ("parts",
                   Arr [Obj [("text", Str ocr_prompt)];
                        Obj [("inline_data",
                              Obj [("mime_type", mimeType); ("data", image)])]])]])].

(** What a Gemini route writes: the status and the value given to
    [JSON.stringify]. *)
Record GeminiReply : Type := {
  gemini_code : Z;
  gemini_body : value
}.

Definition error_reply (st : Z) (m : string) : GeminiReply :=
  {| gemini_code := st; gemini_body := Obj [("error", Str m)] |}.

(** [m || dflt] on a message. *)
Definition message_or (m dflt : string) : string := if is_empty m then dflt else m.

(** [fields] after the assignment [data[k] = v]: the property keeps its
    place when it exists and is added last otherwise. *)
Fixpoint set_field (k : string) (v : value) (fields : list (string * value))
  : list (string * value) :=
  match fields with
  | [] => [(k, v)]
  | (k', v') :: rest =>
      if String.eqb k k' then (k, v) :: rest else (k', v') :: set_field k v rest
  end.

(** [if (!data[k]) data[k] = v], as [JSON.stringify] will show [data]: the
    assignment is lost on a primitive and is not printed for an array. *)
Definition with_default (data : value) (k : string) (v : value) : value :=
  match data with
  | Obj fields => if truthy (lookup_field k fields) then data else Obj (set_field k v fields)
  | _ => data
  end.

Section GeminiRoutes.
Context {rt : Runtime} {nw : Network}.
Variable cfg : Config.
(** The message of the SyntaxError [JSON.parse] throws on a text. *)
Variable syntax_message : string -> string.

(** [JSON.parse(body || "{}")] *)
Definition parse_body (body : string) : option value :=
  JSON_parse (if is_empty body then "{}" else body).

Definition missing_key : GeminiReply := error_reply 500 "Missing GEMINI_API_KEY in .env".

Definition no_json_reply (text : value) : GeminiReply :=
  {| gemini_code := 500;
     gemini_body := Obj [("error", Str "No JSON from Gemini"); ("raw", text)] |}.

(** The route [POST /api/food-suggest]; [body] is the request body. *)
Definition food_suggest_route (body : string) (n : Net) : GeminiReply * Net :=
  if negb (truthy (GEMINI_API_KEY cfg)) then (missing_key, n)
  else
    match parse_body body with
    | None => (error_reply 500 (message_or (syntax_message body) "Server error"), n)
    | Some parsed =>
        match get parsed "query" with
        | Throw e => (error_reply 500 (message_or (message e) "Server error"), n)
        | Ok q =>
            let query := trim (ToString (or_else q (Str ""))) in
            if is_empty query then (error_reply 400 "Missing query", n)
            else
              match callGemini cfg (suggest_payload query) n with
              | (Throw e, n') =>
                  (error_reply 500 (message_or (message e) "Gemini error"), n')
              | (Ok text, n') =>
                  let data := parseGeminiJson text in
                  if negb (truthy data) then (no_json_reply text, n')
                  else
                    ({| gemini_code := 200;
                        gemini_body :=
                          with_default (with_default data "per_amount" (Num (Fin 100)))
                            "per_unit" (Str "g") |}, n')
              end
        end
    end.

(** The route [POST /api/label-ocr]. *)
Definition label_ocr_route (body : string) (n : Net) : GeminiReply * Net :=
  if negb (truthy (GEMINI_API_KEY cfg)) then (missing_key, n)
  else
    match parse_body body with
    | None => (error_reply 500 (message_or (syntax_message body) "Server error"), n)
    | Some parsed =>
        match get parsed "image" with
        | Throw e => (error_reply 500 (message_or (message e) "Server error"), n)
        | Ok i =>
            let image := or_else i (Str "") in
            let mimeType := or_else (get_opt parsed "mimeType") (Str "image/jpeg") in
            if negb (truthy image) then (error_reply 400 "Missing image", n)
            else
              match callGemini cfg (ocr_payload image mimeType) n with
              | (Throw e, n') =>
                  (error_reply 500 (message_or (message e) "Gemini error"), n')
              | (Ok text, n') =>
                  let data := parseGeminiJson text in
                  if negb (truthy data) then (no_json_reply text, n')
                  else ({| gemini_code := 200; gemini_body := data |}, n')
              end
        end
    end.

End GeminiRoutes.



Lemma with_default_truthy data k v : truthy (with_default data k v) = truthy data.
Proof.
  destruct data; try reflexivity. simpl.
  destruct (truthy (lookup_field k fields)); reflexivity.
Qed.


Section GeminiRouteFacts.
Context {rt : Runtime} {nw : Network}.
Variable cfg : Config.
Variable syntax_message : string -> string.

Definition route_invariant (out : GeminiReply * Net) (n : Net) : Prop :=
  (gemini_code (fst out) = 200 \/ gemini_code (fst out) = 400
   \/ gemini_code (fst out) = 500)
  /\ (gemini_code (fst out) = 400 -> snd out = n)
  /\ (truthy (GEMINI_API_KEY cfg) = false -> out = (missing_key, n))
  /\ (gemini_code (fst out) = 200 -> truthy (gemini_body (fst out)) = true).

(** Both Gemini routes answer 200, 400 or 500; a 400 is answered without
    any request; without an API key the answer is the 500 of the missing
    key, without a request and whatever the body (even one that is not
    JSON or lacks the required field); a 200 always carries a truthy
    value. *)
Theorem gemini_routes_answers body n :
  route_invariant (food_suggest_route cfg syntax_message body n) n
  /\ route_invariant (label_ocr_route cfg syntax_message body n) n.
Proof.
  unfold route_invariant, food_suggest_route, label_ocr_route.
  destruct (truthy (GEMINI_API_KEY cfg)); cbn [negb];
    [|cbn; repeat split; try tauto; discriminate].
  destruct (parse_body body) as [parsed|];
    [|cbn; repeat split; try tauto; discriminate].
  split.
  - destruct (get parsed "query") as [q|e];
      [|cbn; repeat split; try tauto; discriminate].
    destruct (is_empty _); [cbn; repeat split; try tauto; discriminate|].
    destruct (callGemini _ _ _) as [[text|e] n'];
      [|cbn; repeat split; try tauto; discriminate].
    destruct (truthy (parseGeminiJson text)) eqn:Et; cbn [negb];
      [|cbn; repeat split; try tauto; discriminate].
    cbn [fst snd gemini_code gemini_body].
    split; [tauto|]. split; [discriminate|]. split; [discriminate|].
    intros _. rewrite !with_default_truthy. exact Et.
  - destruct (get parsed "image") as [i|e];
      [|cbn; repeat split; try tauto; discriminate].
    destruct (truthy (or_else i (Str ""))); cbn [negb];
      [|cbn; repeat split; try tauto; discriminate].
    destruct (callGemini _ _ _) as [[text|e] n'];
      [|cbn; repeat split; try tauto; discriminate].
    destruct (truthy (parseGeminiJson text)) eqn:Et; cbn [negb];
      [|cbn; repeat split; try tauto; discriminate].
    cbn [fst snd gemini_code gemini_body].
    split; [tauto|]. split; [discriminate|]. split; [discriminate|].
    intros _. exact Et.
Qed.

(** A body whose [query] is missing, falsy, or a string of white space
    only is answered 400 by [/api/food-suggest], without a request. *)
Theorem food_suggest_blank_query body n fields :
  truthy (GEMINI_API_KEY cfg) = true ->
  parse_body body = Some (Obj fields) ->
  truthy (lookup_field "query" fields) = false
  \/ (exists s, lookup_field "query" fields = Str s /\ is_empty (trim s) = true) ->
  food_suggest_route cfg syntax_message body n = (error_reply 400 "Missing query", n).
Proof.
  intros Hk Hp Hq. unfold food_suggest_route. rewrite Hk, Hp. cbn [negb get].
  assert (Hblank : is_empty (trim (ToString (or_else (lookup_field "query" fields) (Str ""))))
                   = true).
  { unfold or_else. destruct Hq as [Hf | (s & Hs & Ht)].
    - rewrite Hf. reflexivity.
    - rewrite Hs. destruct (truthy (Str s)); [exact Ht|reflexivity]. }
  rewrite Hblank. reflexivity.
Qed.


(** A 2xx answer of the first model that holds no text (no candidate, no
    part, an empty text) is not tried again with another model:
    [/api/food-suggest] answers 500 "No JSON from Gemini" with an empty
    [raw], after one request. *)
Theorem food_suggest_no_text body n fields s p post st tx w :
  truthy (GEMINI_API_KEY cfg) = true ->
  parse_body body = Some (Obj fields) ->
  lookup_field "query" fields = Str s ->
  is_empty (trim s) = false ->
  candidate_pairs (GEMINI_MODELS cfg) (GEMINI_API_VERSIONS cfg) = p :: post ->
  let rq := gemini_request cfg (suggest_payload (trim s)) p in
  send (world n) rq = (Response st tx, w) ->
  is_2xx st = true ->
  gemini_text (parsed st tx) = Str "" ->
  food_suggest_route cfg syntax_message body n
  = (no_json_reply (Str ""), {| world := w; sent := sent n ++ [rq] |}).
Proof.
  intros Hk Hp Hq Hne Hpairs rq Hsend H2 Ht.
  unfold food_suggest_route. rewrite Hk, Hp. cbn [negb get]. rewrite Hq.
  assert (Hs : truthy (Str s) = true).
  { destruct s; [discriminate Hne|reflexivity]. }
  unfold or_else. rewrite Hs. cbn [ToString]. rewrite Hne.
  rewrite callGemini_scan, Hpairs. cbn [map try_in_order].
  fold rq. rewrite requestJson_send, Hsend.
  change (status (parsed st tx)) with st. rewrite H2.
  change (status (parsed st tx)) with st. rewrite H2, Ht.
  reflexivity.
Qed.

End GeminiRouteFacts.

Definition sample_cfg_no_key : Config :=
  {| CLIENT_ID := "id";
     CLIENT_SECRET := "secret";
     REGION := "ES";
     OFF_BASE_URL := es_url;
     OFF_STRICT_COUNTRY := false;
     GEMINI_API_KEY := Undefined;
     GEMINI_MODELS := ["m1"; "m2"];
     GEMINI_API_VERSIONS := ["v1"; "v1beta"] |}.

(** The SyntaxError message of the examples' engine is not used by them. *)
Definition sample_syntax_message (body : string) : string :=
  "Unexpected token in JSON".

Lemma gemini_routes_answers_witness :
  food_suggest_route sample_cfg_no_key sample_syntax_message "not json"
    (script [Response 200 text_answer] 0)
  = (missing_key, script [Response 200 text_answer] 0)
  /\ label_ocr_route sample_cfg_no_key sample_syntax_message "not json"
       (script [Response 200 text_answer] 0)
     = (missing_key, script [Response 200 text_answer] 0).
Proof.
  destruct (@gemini_routes_answers sample_runtime sample_network sample_cfg_no_key
              sample_syntax_message "not json" (script [Response 200 text_answer] 0))
    as [(_ & _ & Hs & _) (_ & _ & Ho & _)].
  split; [exact (Hs eq_refl)|exact (Ho eq_refl)].
Defined.

Definition text_blank_query : string :=
  "{" +:+ quoted "query" +:+ ":" +:+ quoted "   " +:+ "}".

Lemma food_suggest_blank_query_witness :
  food_suggest_route
    (rt := runtime_with text_blank_query (Obj [("query", Str "   ")]))
    sample_cfg sample_syntax_message text_blank_query
    (script [Response 200 text_answer] 0)
  = (error_reply 400 "Missing query", script [Response 200 text_answer] 0).
Proof.
  apply (@food_suggest_blank_query
           (runtime_with text_blank_query (Obj [("query", Str "   ")]))
           sample_network sample_cfg sample_syntax_message text_blank_query
           (script [Response 200 text_answer] 0) [("query", Str "   ")]).
  - reflexivity.
  - reflexivity.
  - right. exists "   ". split; reflexivity.
Defined.

Definition text_query : string :=
  "{" +:+ quoted "query" +:+ ":" +:+ quoted "leche" +:+ "}".

Definition text_kcal : string := "{" +:+ quoted "kcal" +:+ ":42}".

Definition text_answer_kcal : string :=
  "{" +:+ quoted "candidates" +:+ ":[{" +:+ quoted "content" +:+ ":{"
      +:+ quoted "parts" +:+ ":[{" +:+ quoted "text" +:+ ":"
      +:+ String dq ("{\" +:+ quoted "kcal\" +:+ ":42}" +:+ String dq "}]}}]}").

(** [JSON.parse] on the texts of the suggestion examples. *)
Definition suggest_parse (s : string) : option value :=
  if String.eqb s text_query then Some (Obj [("query", Str "leche")])
  else if String.eqb s text_kcal then Some (Obj [("kcal", Num (Fin 42))])
  else if String.eqb s text_answer_kcal
  then Some (Obj [("candidates",
                   Arr [Obj [("content",
                              Obj [("parts", Arr [Obj [("text", Str text_kcal)]])])]])])
  else if String.eqb s "{}" then Some (Obj [])
  else sample_parse s.

Definition runtime_suggest : Runtime :=
  {| JSON_parse := suggest_parse;
     StringToNumber := sample_StringToNumber;
     ObjectToNumber := fun _ => NaN;
     ObjectToString := fun _ => "[object Object]";
     JSON_stringify := sample_stringify |}.


(** The first model answers 200 with [{}], which has no candidate: the
    reply is the 500 without JSON and the second answer is never asked
    for. *)
Lemma food_suggest_no_text_witness :
  food_suggest_route (rt := runtime_suggest) sample_cfg sample_syntax_message
    text_query (script [Response 200 "{}"; Response 200 text_answer_kcal] 0)
  = (no_json_reply (Str ""),
     {| world := {| answers := [Response 200 text_answer_kcal]; time := 0 |};
        sent := [GeminiRequest "v1" "m1" (Str "k") (suggest_payload "leche")] |}).
Proof.
  exact (@food_suggest_no_text runtime_suggest sample_network sample_cfg
           sample_syntax_message text_query
           (script [Response 200 "{}"; Response 200 text_answer_kcal] 0)
           [("query", Str "leche")] "leche" ("m1", "v1")
           [("m1", "v1beta"); ("m2", "v1"); ("m2", "v1beta")] 200 "{}" _
           eq_refl eq_refl eq_refl eq_refl eq_refl eq_refl eq_refl eq_refl).
Defined.

(** ** Static files *)

Definition dot : ascii := ascii_of_N 46.

(** [s.substring(s.lastIndexOf("."))] when there is a dot. *)
Fixpoint from_last_dot (s : string) : option string :=
  match s with
  | EmptyString => None
  | String a r =>
      match from_last_dot r with
      | Some e => Some e
      | None => if Ascii.eqb a dot then Some s else None
      end
  end.

(** [const ext = ...]: without a dot [lastIndexOf] is -1 and [substring]
    returns the whole path. *)
Definition ext_of (filePath : string) : string :=
  match from_last_dot filePath with
  | Some e => e
  | None => filePath
  end.

Definition contentTypes : list (string * string) :=
  [(".html", "text/html"); (".css", "text/css"); (".js", "application/javascript");
   (".json", "application/json"); (".png", "image/png"); (".jpg", "image/jpeg");
   (".jpeg", "image/jpeg"); (".gif", "image/gif"); (".svg", "image/svg+xml");
   (".mp4", "video/mp4"); (".webm", "video/webm"); (".ico", "image/x-icon")].

Fixpoint assoc (k : string) (table : list (string * string)) : option string :=
  match table with
  | [] => None
  | (k', v) :: rest => if String.eqb k k' then Some v else assoc k rest
  end.

(** [url.pathname === "/" ? "/index.html" : url.pathname] *)
Definition filePath_of (pathname : string) : string :=
  if String.eqb pathname "/" then "/index.html" else pathname.

(** [contentTypes[ext] || "application/octet-stream"].  The path of a URL
    starts with a slash, so [ext] starts with a dot or a slash and names
    no property inherited by the table. *)
Definition contentType_of (pathname : string) : string :=
  match assoc (ext_of (filePath_of pathname)) contentTypes with
  | Some t => t
  | None => "application/octet-stream"
  end.

Record StaticReply : Type := {
  static_code : Z;
  static_type : string;
  static_content : string
}.

Definition not_found_page : StaticReply :=
  {| static_code := 404; static_type := "text/html";
     static_content := "<h1>404 Not Found</h1>" |}.

(** The static file handler.  [read_file] gives the content of a path that
    exists, is a regular file and can be read, and [None] otherwise (the
    [catch] leads to the same 404). *)
Definition static_route (cwd : string) (read_file : string -> option string)
    (pathname : string) : StaticReply :=
  match read_file (cwd +:+ filePath_of pathname) with
  | Some content =>
      {| static_code := 200; static_type := contentType_of pathname;
         static_content := content |}
  | None => not_found_page
  end.

Definition not_dot (c : ascii) : bool := negb (Ascii.eqb c dot).

Lemma from_last_dot_app stem e e' :
  from_last_dot e = Some e' -> from_last_dot (stem +:+ e) = Some e'.
Proof.
  intros He. induction stem as [|a stem IH]; [exact He|].
  change (String a stem +:+ e) with (String a (stem +:+ e)).
  cbn [from_last_dot]. rewrite IH. reflexivity.
Qed.

Lemma from_last_dot_none s : all_chars not_dot s = true -> from_last_dot s = None.
Proof.
  induction s as [|a s IH]; [reflexivity|]. simpl. intros H.
  apply andb_prop in H as [Ha Hs]. rewrite (IH Hs).
  unfold not_dot in Ha. apply negb_true_iff in Ha. rewrite Ha. reflexivity.
Qed.

Lemma from_last_dot_ext r :
  all_chars not_dot r = true -> from_last_dot (String dot r) = Some (String dot r).
Proof.
  intros Hr. cbn [from_last_dot]. rewrite (from_last_dot_none _ Hr).
  rewrite Ascii.eqb_refl. reflexivity.
Qed.

Lemma filePath_of_dotted stem e e' :
  from_last_dot e = Some e' -> filePath_of (stem +:+ e) = stem +:+ e.
Proof.
  intros He. unfold filePath_of.
  destruct (String.eqb_spec (stem +:+ e) "/") as [E|E]; [|reflexivity].
  pose proof (from_last_dot_app stem e e' He) as H. rewrite E in H. discriminate H.
Qed.

(** The content type depends on the text from the last dot of the path
    only, compared as written: each extension of the table gives its type
    under any directory and name (names with more dots included), any
    other text after the last dot gives [application/octet-stream], and
    so does a path without a dot.  The root is [/index.html].  A path
    that is not a readable regular file is answered with the 404 page as
    [text/html]. *)
Theorem static_route_content_type cwd read_file :
  (forall e t stem content,
     In (e, t) contentTypes ->
     read_file (cwd +:+ stem +:+ e) = Some content ->
     static_route cwd read_file (stem +:+ e)
     = {| static_code := 200; static_type := t; static_content := content |})
  /\ (forall stem r,
        all_chars not_dot r = true ->
        assoc (String dot r) contentTypes = None ->
        contentType_of (stem +:+ String dot r) = "application/octet-stream")
  /\ (forall pathname,
        all_chars not_dot pathname = true ->
        startsWith "/" pathname = true ->
        pathname <> "/" ->
        contentType_of pathname = "application/octet-stream")
  /\ (forall content,
        read_file (cwd +:+ "/index.html") = Some content ->
        static_route cwd read_file "/"
        = {| static_code := 200; static_type := "text/html"; static_content := content |})
  /\ (forall pathname,
        read_file (cwd +:+ filePath_of pathname) = None ->
        static_route cwd read_file pathname = not_found_page).
Proof.
  split; [|split; [|split; [|split]]].
  - intros e t stem content Hin Hread.
    assert (He : from_last_dot e = Some e /\ assoc e contentTypes = Some t).
    { simpl in Hin.
      repeat (destruct Hin as [Hin|Hin]; [injection Hin as <- <-; split; reflexivity|]).
      destruct Hin. }
    destruct He as [He Ht].
    unfold static_route, contentType_of, ext_of.
    rewrite (filePath_of_dotted stem e e He), Hread.
    rewrite (from_last_dot_app stem e e He), Ht. reflexivity.
  - intros stem r Hr Hno.
    pose proof (from_last_dot_ext r Hr) as He.
    unfold contentType_of, ext_of.
    rewrite (filePath_of_dotted stem _ _ He), (from_last_dot_app stem _ _ He), Hno.
    reflexivity.
  - intros pathname Hnd Hs Hne.
    unfold contentType_of, filePath_of.
    apply String.eqb_neq in Hne. rewrite Hne.
    unfold ext_of. rewrite (from_last_dot_none _ Hnd).
    unfold startsWith in Hs.
    destruct pathname as [|a r]; [cbv in Hs; discriminate Hs|].
    cbn [String.prefix] in Hs.
    destruct (ascii_dec "/" a) as [<-|]; [reflexivity|discriminate Hs].
  - intros content Hread. unfold static_route.
    change (filePath_of "/") with "/index.html". rewrite Hread. reflexivity.
  - intros pathname Hread. unfold static_route. rewrite Hread. reflexivity.
Qed.

(** A style sheet in a directory whose name has a dot, an upper-case
    extension, and a missing file. *)
Lemma static_route_content_type_witness :
  let read_file p := if String.eqb p "/srv/v1.2/site.css" then Some "body{}" else None in
  static_route "/srv" read_file "/v1.2/site.css"
  = {| static_code := 200; static_type := "text/css"; static_content := "body{}" |}
  /\ contentType_of "/LOGO.PNG" = "application/octet-stream"
  /\ static_route "/srv" read_file "/missing.html" = not_found_page.
Proof.
  intros read_file.
  destruct (static_route_content_type "/srv" read_file) as (Hext & Hother & _ & _ & Hnone).
  split; [|split].
  - apply (Hext ".css" "text/css" "/v1.2/site" "body{}").
    + right. left. reflexivity.
    + reflexivity.
  - exact (Hother "/LOGO" "PNG" eq_refl eq_refl).
  - apply Hnone. reflexivity.
Defined.

(** ** The single-backtick variant of the fence *)

(** [d] after a single backtick and "json", closed by three backticks. *)
Definition tick_fenced (d : string) : string :=
  tick_json +:+ String newline (d +:+ String newline fence).

Section TickJson.
Context {rt : Runtime}.

Lemma cleaned_tick_fenced d :
  startsWith fence (trim d) = false ->
  startsWith tick_json (trim d) = false ->
  cleaned (tick_fenced d) = trim d.
Proof.
  intros Hf Ht. unfold cleaned.
  assert (Htrim : trim (tick_fenced d) = tick_fenced d).
  { unfold trim, tick_fenced.
    change (trimStart (tick_json +:+ ?x)) with (tick_json +:+ x).
    apply trimEnd_app_keep; [|reflexivity].
    apply trimEnd_cons_keep; [|apply is_empty_append; reflexivity].
    apply trimEnd_app_keep; reflexivity. }
  rewrite Htrim.
  change (startsWith fence (tick_fenced d)) with false. cbv iota.
  change (startsWith tick_json (tick_fenced d)) with true. cbv iota.
  change (strip_tick_json (tick_fenced d)) with (d +:+ (String newline "" +:+ fence)).
  rewrite <- append_assoc, strip_fence_close_app.
  apply (trim_space d newline eq_refl).
Qed.

Lemma match_braces_tick_fenced d : match_braces (tick_fenced d) = match_braces d.
Proof.
  unfold match_braces, tick_fenced.
  change (from_first open_brace (tick_json +:+ String newline ?x))
    with (from_first open_brace x).
  rewrite (from_first_app open_brace d (String newline fence) eq_refl).
  destruct (from_first open_brace d) as [[|b r]|]; [reflexivity| |reflexivity].
  change (String b r +:+ String newline fence)
    with (String b (r +:+ String newline fence)).
  cbv iota.
  rewrite (upto_last_app close_brace r (String newline fence) eq_refl).
  reflexivity.
Qed.

(** A text that opens with one backtick and "json" instead of three
    backticks and closes with three is extracted as the text inside is:
    same parse, same fallback to the braces. *)
Theorem parseGeminiJson_tick_json d :
  is_empty d = false ->
  startsWith fence (trim d) = false ->
  startsWith tick_json (trim d) = false ->
  parseGeminiJson (Str (tick_fenced d)) = parseGeminiJson (Str d).
Proof.
  intros Hne Hf Ht. unfold parseGeminiJson. cbn [truthy ToString].
  rewrite Hne. change (is_empty (tick_fenced d)) with false. cbn [negb].
  rewrite (cleaned_tick_fenced d Hf Ht), match_braces_tick_fenced.
  unfold cleaned. rewrite Hf, Ht. reflexivity.
Qed.

End TickJson.

Lemma parseGeminiJson_tick_json_witness :
  parseGeminiJson (Str (tick_fenced text_a1)) = Obj [("a", Num (Fin 1))].
Proof.
  rewrite (@parseGeminiJson_tick_json sample_runtime text_a1 eq_refl eq_refl eq_refl).
  reflexivity.
Defined.
